(** * RPC over message passing: PostRPC (post-rpc.js) and Browser.rpc

    A shallow embedding of the two RPC bindings of the extension:
    - [PostRPC] (src/js/common/post-rpc.js), RPC through [postMessage]
      between windows: the Window Binding;
    - [BrowserRpc] (Browser.rpc in the WebExtensions browser file), RPC
      through [browser.runtime.onMessage]: the Channel Binding.

    JavaScript data is a small inductive type of values; objects used as
    dictionaries ([_calls], [_methods]) are finite maps keyed by property
    name, read through what such an object inherits where it holds
    nothing; what a function does to the outside (posting a message, logging,
    calling a handler, resolving a promise) is returned as a list of
    effects next to the new state. *)

From stdpp Require Import gmap strings list fin_maps pretty.
From Stdlib Require Import ZArith Lia Ascii.

Open Scope Z_scope.
Set Warnings "-register-all".

(** ** JavaScript values *)

(** Data as it travels in messages.  [VNum] holds the integer-valued
    numbers, the only ones the program makes (ids, tab ids): [VNum n] is
    the number JavaScript writes with the digits of [n].  [VBoxed v] is the
    object [Object(v)] wrapping the boolean, number or string [v]. *)
Inductive value : Type :=
| VUndef
| VNull
| VBool (b : bool)
| VNum (n : Z)
| VStr (s : string)
| VArr (elems : list value)
| VObj (fields : list (string * value))
| VBoxed (v : value).

(** [if(v)], [!v], [a || b], [a && b] test this. *)
Definition truthy (v : value) : bool :=
  match v with
  | VUndef | VNull => false
  | VBool b => b
  | VNum n => negb (n =? 0)
  | VStr s => negb (String.eqb s "")
  | VArr _ | VObj _ | VBoxed _ => true
  end.

(** [a || b] *)
Definition js_or (a b : value) : value := if truthy a then a else b.

(** [n] without its trailing zeros, and their number: [(m, z)] with
    [m * 10 ^ z = n]. *)
Fixpoint strip_zeros (fuel : nat) (n : N) : N * N :=
  match fuel with
  | O => (n, 0%N)
  | S fuel' =>
      if (negb (n =? 0) && (n mod 10 =? 0))%N
      then let '(m, z) := strip_zeros fuel' (n / 10)%N in (m, N.succ z)
      else (n, 0%N)
  end.

(** The exponent form of a number: its first digit, the other digits up to
    the last that is not zero after a point, and the exponent of ten, as in
    [1e+21] and [1.5e+21]. *)
Definition exponent_form (n : N) : string :=
  let '(m, z) := strip_zeros (N.to_nat (N.log2 n)) n in
  match pretty m with
  | EmptyString => EmptyString
  | String c rest =>
      String c (match rest with EmptyString => EmptyString | _ => "." +:+ rest end)
        +:+ "e+" +:+ pretty (N.of_nat (String.length rest) + z)%N
  end.

(** The string of a number: all its digits below [1e21], the exponent form
    from there on. *)
Definition number_to_string (n : Z) : string :=
  if Z.abs n <? 1000000000000000000000 then pretty n
  else (if n <? 0 then "-" else "") +:+ exponent_form (Z.abs_N n).

(** Decimal digits, and strings made of them. *)
Definition is_digit (c : ascii) : bool :=
  (48 <=? nat_of_ascii c)%nat && (nat_of_ascii c <=? 57)%nat.

Fixpoint digits (s : string) : bool :=
  match s with
  | EmptyString => true
  | String c r => is_digit c && digits r
  end.

(** Whether a string holds the letter of the exponent form. *)
Fixpoint has_e (s : string) : bool :=
  match s with
  | EmptyString => false
  | String c r => Ascii.eqb c "e" || has_e r
  end.


(** The string a value becomes when used as a property name ([obj[v]]) or
    appended to a string.  An array joins its elements with commas, null and
    undefined elements printing as nothing. *)
Fixpoint to_string (v : value) : string :=
  match v with
  | VUndef => "undefined"
  | VNull => "null"
  | VBool true => "true"
  | VBool false => "false"
  | VNum n => number_to_string n
  | VStr s => s
  | VArr l =>
      (fix join (l : list value) : string :=
         match l with
         | [] => ""
         | x :: rest =>
             let sx := match x with
                       | VUndef | VNull => ""
                       | _ => to_string x
                       end in
             match rest with
             | [] => sx
             | _ :: _ => sx +:+ "," +:+ join rest
             end
         end) l
  | VObj _ => "[object Object]"
  | VBoxed v => to_string v
  end.

(** Reading a field of an object literal or of a received object. *)
Fixpoint field (fs : list (string * value)) (k : string) : value :=
  match fs with
  | [] => VUndef
  | (k', v) :: rest => if String.eqb k' k then v else field rest k
  end.

(** [v.k] and [v[k]] for a [v] known not to be null or undefined.  The names
    read by the program ([method], [args], [callId], [from], [value], [tab],
    [id] and the [__PostRPC_] namespace) are no built-in property of arrays,
    strings, numbers or booleans, so those yield undefined. *)
Definition prop (v : value) (k : string) : value :=
  match v with
  | VObj fs => field fs k
  | _ => VUndef
  end.

(** The error a built-in raises on an operand of the wrong kind. *)
Definition TypeError : value := VObj [("name", VStr "TypeError")].

(** The error a read of an undeclared variable raises. *)
Definition ReferenceError : value := VObj [("name", VStr "ReferenceError")].

(** ** Handlers and promises *)

(** How a promise ends. *)
Inductive settlement : Type :=
| Fulfilled (v : value)
| Rejected (e : value)
| Unsettled.

(** What a call of a registered handler does: return a plain value, return
    a Promise (with the way that promise ends), or throw. *)
Inductive hresult : Type :=
| HValue (v : value)
| HPromise (s : settlement)
| HThrow (e : value).

Abbreviation handler := (list value -> hresult).

(** A promise made by [call] is known by a number; its [resolve] function is
    what the Call Registry stores. *)
Abbreviation promise := nat.

(** How a function call completes. *)
Inductive completion : Type :=
| Return (v : value)
| Throw (e : value).

(** ** Dictionaries and what they inherit *)

(** The two registries of each binding are objects made by [{}] and used as
    dictionaries.  A finite map holds the properties such an object has of
    its own; a read [obj[name]] that finds none goes on to the prototype,
    [Object.prototype] for [{}]. *)

(** What a read [obj[name]] finds:
    - nothing, or a falsy value;
    - a truthy value, given by what [.apply(null, args)] on it does (a
      TypeError for a value that is no function);
    - no value: the read itself raises. *)
Inductive member : Type :=
| NoMember
| Member (h : handler)
| BadRead (e : value).

(** [Object(v)] *)
Definition Object_ (v : value) : value :=
  match v with
  | VUndef | VNull => VObj []
  | VBool _ | VNum _ | VStr _ => VBoxed v
  | VArr _ | VObj _ | VBoxed _ => v
  end.

(** Whether a value is an object. *)
Definition is_object (v : value) : bool :=
  match v with
  | VArr _ | VObj _ | VBoxed _ => true
  | _ => false
  end.

(** The properties of [Object.prototype], each given by what
    [.apply(null, args)] on it does.  All of them are truthy.  With [null]
    for [this], [toString] answers [[object Null]], [constructor] is
    [Object], [isPrototypeOf] answers false for an argument that is no
    object, and the other functions raise a TypeError when they turn [this]
    into an object; [__proto__] reads as [Object.prototype] itself, an
    object without [apply]. *)
Definition Object_prototype (name : string) : option handler :=
  if String.eqb name "toString" then Some (fun _ => HValue (VStr "[object Null]"))
  else if String.eqb name "constructor" then Some (fun args => HValue (Object_ (hd VUndef args)))
  else if String.eqb name "isPrototypeOf"
  then Some (fun args => if is_object (hd VUndef args) then HThrow TypeError
                         else HValue (VBool false))
  else if existsb (String.eqb name)
            ["toLocaleString"; "valueOf"; "hasOwnProperty"; "propertyIsEnumerable";
             "__defineGetter__"; "__defineSetter__"; "__lookupGetter__";
             "__lookupSetter__"; "__proto__"]
  then Some (fun _ => HThrow TypeError)
  else None.

(** What the program cannot see of the functions it is given. *)
Class Runtime : Type := {
  (** [function_member f name] is what a read of [name] finds in an object
      whose prototype is the function [f] and which has no such property
      of its own: a property of [f] ([name], [length]), of
      [Function.prototype] ([apply], [call], [bind]) or of
      [Object.prototype]. *)
  function_member : handler -> string -> member
}.

(** [methods[name]] for a Method Registry.  The assignment
    [methods["__proto__"] = f] of a function [f] makes [f] the prototype of
    the registry and creates no property: the entry of the map under
    [__proto__] is that prototype, and is what a read of [__proto__]
    yields. *)
Definition read_member `{Runtime} (methods : gmap string handler) (name : string) : member :=
  match methods !! name with
  | Some h => Member h
  | None =>
      match methods !! "__proto__" with
      | Some f => function_member f name
      | None =>
          match Object_prototype name with
          | Some h => Member h
          | None => NoMember
          end
      end
  end.

(** ** The Window Binding: PostRPC *)

Module PostRPC.

(** What a PostRPC function does to the outside. *)
Inductive effect : Type :=
| PostMessage (payload targetOrigin : value)   (* _sendObj.postMessage *)
| ConsoleLog (text : string)                   (* console.log *)
| Invoke (name : string) (args : list value)   (* _methods[name].apply(null, args) *)
| Resolve (p : promise) (v : value).           (* the resolve function of p called on v *)

(** The fields of a PostRPC object ([_sendObj] is where [PostMessage]
    goes).  [_calls] and [_methods] are the two dictionaries, each with the
    properties it has of its own: [m !! k] is the stored [resolve] function
    or handler, [None] where the object holds nothing under [k] and a read
    goes on to what it inherits. *)
Record instance : Type := Instance {
  _id : Z;
  _ns : string;
  _calls : gmap string promise;
  _methods : gmap string handler;
  _targetOrigin : value
}.

Definition set_calls (this : instance) (calls : gmap string promise) : instance :=
  Instance (_id this) (_ns this) calls (_methods this) (_targetOrigin this).

Definition set_methods (this : instance) (methods : gmap string handler) : instance :=
  Instance (_id this) (_ns this) (_calls this) methods (_targetOrigin this).

(** [Math.floor(Math.random()*1000000)]: some integer of this range. *)
Definition random_id (r : Z) : Prop := 0 <= r < 1000000.

(** [new PostRPC(name, sendObj, receiveObj, targetOrigin)], [id] being the
    number drawn for [_id].  The listener added to [receiveObj] is
    [_receiveMessage] below; delivering a message is applying it.  The two
    dictionaries start as [{}], with no property of their own and
    [Object.prototype] to inherit from. *)
Definition new (name : value) (id : Z) (targetOrigin : value) : instance :=
  Instance id ("__PostRPC_" +:+ to_string name) ∅ ∅ targetOrigin.

(** [PostRPC.prototype.register]: [this._methods[name] = fun], which for the
    name [__proto__] sets the prototype (see [read_member]). *)
Definition register (this : instance) (name : value) (fun_ : handler) : instance :=
  set_methods this (<[to_string name := fun_]> (_methods this)).

(** [PostRPC.prototype._sendMessage]: everything is inside the namespace. *)
Definition _sendMessage (this : instance) (message : value) : effect :=
  PostMessage (VObj [(_ns this, message)]) (_targetOrigin this).

(** [PostRPC.prototype.call]: [resolve] is the promise being made, [callId]
    the number drawn for this call.  Yields the object afterwards and the
    message posted. *)
Definition call (this : instance) (resolve : promise) (method args : value)
    (callId : Z) : instance * effect :=
  let this' := set_calls this (<[to_string (VNum callId) := resolve]> (_calls this)) in
  let args := js_or args (VArr []) in
  (this',
   _sendMessage this'
     (VObj [("method", method); ("args", args);
            ("callId", VNum callId); ("from", VNum (_id this))])).

(** What one run of [_receiveMessage] leaves: the object afterwards, what
    it did before returning to its caller ([now]) and after its [await]
    ([later]), and how the promise it returns ends. *)
Record outcome : Type := Outcome {
  state : instance;
  now : list effect;
  later : list effect;
  result : settlement
}.

(** A run that did nothing. *)
Definition ignored (this : instance) : outcome := Outcome this [] [] (Fulfilled VUndef).

Section Host.

Context `{Runtime}.

(** Whether the global scope declares a [console] (an object, where it
    does). *)
Variable console : bool.

(** [v == n] for a [v] that is a string, an array or an object: the
    comparison goes through the conversion of [v] to a number. *)
Variable coerced_eq : value -> Z -> bool.

(** The argument list [apply] reads off an object that is not an array (its
    [length] and index fields), if any. *)
Variable object_arguments : list (string * value) -> option (list value).

(** [v == n] for a number [n]. *)
Definition loose_eq (v : value) (n : Z) : bool :=
  match v with
  | VNum m => m =? n
  | VUndef | VNull => false
  | VBool b => (if b then 1 else 0) =? n
  | VStr _ | VArr _ | VObj _ => coerced_eq v n
  | VBoxed (VNum m) => m =? n
  | VBoxed (VBool b) => (if b then 1 else 0) =? n
  | VBoxed v' => coerced_eq v' n
  end.

(** The arguments of [f.apply(null, v)]; [None] when [apply] raises a
    TypeError. *)
Definition array_like (v : value) : option (list value) :=
  match v with
  | VUndef | VNull => Some []
  | VArr l => Some l
  | VObj fs => object_arguments fs
  | VBool _ | VNum _ | VStr _ => None
  | VBoxed (VStr s) => Some (map (fun c => VStr (String c "")) (String.list_ascii_of_string s))
  | VBoxed _ => Some []
  end.

(** [PostRPC.prototype._receiveMessage], on an event whose [data] is
    [event_data].  A continuation [c] is the [resolve] function of a
    promise: [c.apply(null, data.value)] resolves it with the first element
    of [data.value], undefined if there is none.  The function is [async]:
    what it raises rejects the promise it returns. *)
Definition _receiveMessage (this : instance) (event_data : value) : outcome :=
  let data := if truthy event_data then prop event_data (_ns this) else event_data in
  if negb (truthy data) then Outcome this [] [] (Fulfilled VUndef)
  else if truthy (prop data "method") then
    (* message call *)
    if loose_eq (prop data "from") (_id this) then
      Outcome this [] [] (Fulfilled VUndef)
    else
      match read_member (_methods this) (to_string (prop data "method")) with
      | BadRead e => Outcome this [] [] (Rejected e)
      | NoMember =>
          if console
          then Outcome this
                 [ConsoleLog ("PostRPC: no handler for " +:+ to_string (prop data "method"))]
                 [] (Fulfilled VUndef)
          else Outcome this [] [] (Rejected ReferenceError)   (* if(console) *)
      | Member h =>
          match array_like (prop data "args") with
          | None => Outcome this [] [] (Rejected TypeError)
          | Some args =>
              let invoke := Invoke (to_string (prop data "method")) args in
              let reply res :=
                _sendMessage this
                  (VObj [("callId", prop data "callId"); ("value", VArr [res])]) in
              match h args with
              | HThrow e => Outcome this [invoke] [] (Rejected e)
              | HValue res => Outcome this [invoke] [reply res] (Fulfilled VUndef)
              | HPromise (Fulfilled res) =>
                  Outcome this [invoke] [reply res] (Fulfilled VUndef)
              | HPromise (Rejected e) => Outcome this [invoke] [] (Rejected e)
              | HPromise Unsettled => Outcome this [invoke] [] Unsettled
              end
          end
      end
  else
    (* return value *)
    let key := to_string (prop data "callId") in
    let c := _calls this !! key in
    let this' := set_calls this (delete key (_calls this)) in
    match c with
    | Some p =>
        match array_like (prop data "value") with
        | None => Outcome this' [] [] (Rejected TypeError)
        | Some vs => Outcome this' [Resolve p (hd VUndef vs)] [] (Fulfilled VUndef)
        end
    | None =>
        (* no call of this id: [c] is what the dictionary inherits *)
        match Object_prototype key with
        | None => Outcome this' [] [] (Fulfilled VUndef)
        | Some f =>
            match array_like (prop data "value") with
            | None => Outcome this' [] [] (Rejected TypeError)
            | Some vs =>
                match f vs with
                | HThrow e => Outcome this' [] [] (Rejected e)
                | _ => Outcome this' [] [] (Fulfilled VUndef)
                end
            end
        end
    end.

(** *** The transport *)

(** The payloads a run posted. *)
Definition posted (es : list effect) : list value :=
  omap (fun e => match e with PostMessage payload _ => Some payload | _ => None end) es.

(** The promises a run resolved, with their values. *)
Definition resolved (es : list effect) : list (promise * value) :=
  omap (fun e => match e with Resolve p v => Some (p, v) | _ => None end) es.

(** The handler calls a run made, with their arguments. *)
Definition invocations (es : list effect) : list (list value) :=
  omap (fun e => match e with Invoke _ args => Some args | _ => None end) es.

(** Delivering messages to an object, one after the other. *)
Fixpoint deliver (this : instance) (payloads : list value) : instance * list effect :=
  match payloads with
  | [] => (this, [])
  | m :: rest =>
      let o := _receiveMessage this m in
      let '(this', es) := deliver (state o) rest in
      (this', now o ++ later o ++ es)
  end.

(** A call made on [caller] whose request the transport delivers to
    [callee], and whose answers (what [callee] posts) it delivers back to
    [caller].  Yields [caller] at the end and everything it did. *)
Definition round_trip (caller callee : instance) (resolve : promise)
    (method args : value) (callId : Z) : instance * list effect :=
  let '(caller1, request) := call caller resolve method args callId in
  let '(_, answers) := deliver callee (posted [request]) in
  deliver caller1 (posted answers).

End Host.

End PostRPC.

(** ** The Channel Binding: Browser.rpc *)

Module BrowserRpc.

(** What a Browser.rpc function does to the outside. *)
Inductive effect : Type :=
| AddListener                                  (* runtime.onMessage.addListener(_listener) *)
| ConsoleLog (args : list value)               (* console.log *)
| BackgroundLog (args : list value)            (* the background page's console.log *)
| Invoke (name : string) (args : list value)   (* handler.apply(null, args) *)
| Reply (v : value)                            (* replyHandler(v) *)
| TabsSendMessage (tabId message : value) (callback : promise)
| RuntimeSendMessage (message : value) (callback : promise).

(** The parts of [Browser] the RPC code reads: [debugging] is what
    [Browser.capabilities.isDebugging()] answers, [background_console]
    whether [Browser.log] also reaches a background page console that is not
    the current one, [_methods] is [Browser.rpc._methods], undefined until
    the first [register], then an object made by [{}], with the properties
    it has of its own. *)
Record browser : Type := Browser {
  debugging : bool;
  background_console : bool;
  _methods : option (gmap string handler)
}.

Definition set_methods (this : browser) (methods : gmap string handler) : browser :=
  Browser (debugging this) (background_console this) (Some methods).

(** [Browser.rpc.register]: sets the onMessage listener if called for the
    first time.  The assignment [_methods[name] = handler] sets the
    prototype for the name [__proto__] (see [read_member]). *)
Definition register (this : browser) (name : value) (h : handler) : browser * list effect :=
  match _methods this with
  | None => (set_methods this (<[to_string name := h]> ∅), [AddListener])
  | Some methods => (set_methods this (<[to_string name := h]> methods), [])
  end.

(** [Browser.log] *)
Definition log (this : browser) (args : list value) : list effect :=
  if debugging this
  then ConsoleLog args :: (if background_console this then [BackgroundLog args] else [])
  else [].

(** What one run of the listener leaves: what it did before returning
    ([now]), what the reaction added by [res.then(replyHandler)] does once
    [res] has settled ([later]), how the listener itself completed, and the
    rejection of [res], if any, which [then] passes on to the promise it
    makes and which no reaction handles ([unhandled]). *)
Record run : Type := Run {
  now : list effect;
  later : list effect;
  returned : completion;
  unhandled : option value
}.

(** [sender.tab ? sender.tab.id : null] *)
Definition sender_tabId (sender : value) : value :=
  if truthy (prop sender "tab") then prop (prop sender "tab") "id" else VNull.

(** [Browser.rpc._listener(message, sender, replyHandler)]; [sender] is the
    object the browser describes the sender with, the calls of
    [replyHandler] are the [Reply] effects.  The logged array is shown
    without [replyHandler], a function. *)
Definition _listener `{Runtime} (this : browser) (message sender : value) : run :=
  let logged := log this [VStr "RPC: got message"; VArr [message; sender]] in
  match message, _methods this with
  | VUndef, _ | VNull, _ | _, None => Run logged [] (Throw TypeError) None
  | _, Some methods =>
      match read_member methods (to_string (prop message "method")) with
      | BadRead e => Run logged [] (Throw e) None
      | NoMember => Run logged [] (Return VUndef) None
      | Member h =>
          (* add tabId to the arguments *)
          let args := js_or (prop message "args") (VArr []) in
          let tabId := sender_tabId sender in
          match args with
          | VArr l =>
              let args := l ++ [tabId] in
              let invoke := Invoke (to_string (prop message "method")) args in
              match h args with
              | HThrow e => Run (logged ++ [invoke]) [] (Throw e) None
              | HPromise res =>
                  (* the response will come later *)
                  match res with
                  | Fulfilled v =>
                      Run (logged ++ [invoke]) [Reply v] (Return (VBool true)) None
                  | Rejected e =>
                      Run (logged ++ [invoke]) [] (Return (VBool true)) (Some e)
                  | Unsettled =>
                      Run (logged ++ [invoke]) [] (Return (VBool true)) None
                  end
              | HValue res =>
                  (* we have a response right now *)
                  Run (logged ++ [invoke; Reply res]) [] (Return (VBool false)) None
              end
          | _ => Run logged [] (Throw TypeError) None   (* args.push is not a function *)
          end
      end
  end.

(** [Browser.rpc.call(tabId, name, args)]: [resolve] is the promise being
    made, handed to the browser as the callback of the message. *)
Definition call (resolve : promise) (tabId name args : value) : effect :=
  let message := VObj [("method", name); ("args", args)] in
  if truthy tabId
  then TabsSendMessage tabId message resolve
  else RuntimeSendMessage message resolve.

(** The replies a run makes, at once or later. *)
Definition replies (es : list effect) : list value :=
  omap (fun e => match e with Reply v => Some v | _ => None end) es.

(** The handler calls a run makes. *)
Definition invocations (es : list effect) : list (list value) :=
  omap (fun e => match e with Invoke _ args => Some args | _ => None end) es.

End BrowserRpc.

(** ** Sample data *)

(** Handlers and objects the examples below run on. *)
Module Samples.

(** A handler returning [args[0]]. *)
Definition echo : handler := fun args => HValue (hd VUndef args).

(** A handler returning its arguments as an array. *)
Definition whoCalled : handler := fun args => HValue (VArr args).

(** A handler that throws. *)
Definition failing : handler := fun _ => HThrow (VStr "boom").

(** A handler whose promise is rejected. *)
Definition rejecting : handler := fun _ => HPromise (Rejected (VStr "boom")).

(** A host in which no string, array or object equals a number, and no
    plain object lists arguments. *)
Definition no_coercion : value -> Z -> bool := fun _ _ => false.
Definition no_object_arguments : list (string * value) -> option (list value) :=
  fun _ => None.

(** The runtime of the examples, none of which makes a function the
    prototype of a registry. *)
Definition no_function_members : Runtime := {| function_member := fun _ _ => NoMember |}.

(** Two PostRPC objects on the channel [page], with ids 11 and 22. *)
Definition page_a : PostRPC.instance := PostRPC.new (VStr "page") 11 (VStr "*").
Definition page_b : PostRPC.instance := PostRPC.new (VStr "page") 22 (VStr "*").


(** [page_a] with call 7 outstanding, for promise 0. *)
Definition page_a_waiting : PostRPC.instance :=
  fst (PostRPC.call page_a 0%nat (VStr "echo") (VArr [VNum 1]) 7).

(** The main script once it registered [whoCalled], in a store build (not
    debugging) and in a debugging one. *)
Definition main_script : BrowserRpc.browser :=
  fst (BrowserRpc.register (BrowserRpc.Browser false false None) (VStr "whoCalled") whoCalled).

(** The sender descriptor of a content script in tab [n], and of an
    extension page outside any tab. *)
Definition from_tab (n : Z) : value := VObj [("tab", VObj [("id", VNum n)])].
Definition from_page : value := VObj [("id", VStr "extension")].

(** The request of [page_a]'s call 7 of method [name], as it arrives. *)
Definition request_from_a (name : value) : value :=
  VObj [("__PostRPC_page",
         VObj [("method", name); ("args", VArr []);
               ("callId", VNum 7); ("from", VNum 11)])].


(** The response to call 7, carrying [v]. *)
Definition response_7 (v : value) : value :=
  VObj [("__PostRPC_page", VObj [("callId", VNum 7); ("value", VArr [v])])].

(** A Channel request for [name] with the arguments [args]. *)
Definition channel_request (name : value) (args : value) : list (string * value) :=
  [("method", name); ("args", args)].

End Samples.

(** ** The rest of the browser file: storage, capabilities, gui *)

(** [v == s] for a string [s] that is no numeral ([content], [main],
    [popup], [firefox], [chrome], [self], [loading], [complete]): a string
    equals it when it is the same string, an array or an object when it
    prints as [s], nothing else does. *)
Definition loose_eq_word (v : value) (s : string) : bool :=
  match v with
  | VStr t | VBoxed (VStr t) => String.eqb t s
  | VArr _ | VObj _ => String.eqb (to_string v) s
  | VUndef | VNull | VBool _ | VNum _ | VBoxed _ => false
  end.

(** Booleans, numbers and strings: what [apply] refuses as argument list. *)
Definition primitive (v : value) : bool :=
  match v with
  | VBool _ | VNum _ | VStr _ => true
  | _ => false
  end.

(** [obj[k] = v] on an object literal. *)
Definition obj_set (fs : list (string * value)) (k : string) (v : value)
    : list (string * value) :=
  if existsb (fun kv => String.eqb (fst kv) k) fs
  then map (fun kv => if String.eqb (fst kv) k then (fst kv, v) else kv) fs
  else fs ++ [(k, v)].

(** [args[i]] of a function called on [args]: a missing parameter is
    undefined. *)
Definition parameter (args : list value) (i : nat) : value := nth i args VUndef.

(** Whether a value is an array. *)
Definition is_array (v : value) : bool :=
  match v with
  | VArr _ => true
  | _ => false
  end.

(** The message [Browser.rpc.call] hands to the browser. *)
Definition sent_message (e : BrowserRpc.effect) : option value :=
  match e with
  | BrowserRpc.TabsSendMessage _ message _
  | BrowserRpc.RuntimeSendMessage message _ => Some message
  | _ => None
  end.

(** *** Browser.storage *)

Module BrowserStorage.

(** [Browser.storage._key]: everything is stored under this key. *)
Definition _key : string := "global".

(** [browser.storage.local.get(key, callback)]: the items handed to the
    callback, an object holding [key] when something is stored under it.
    The storage area is the finite map of what is stored under each key. *)
Definition local_get (area : gmap string value) (key : string) : value :=
  match area !! key with
  | Some v => VObj [(key, v)]
  | None => VObj []
  end.

(** [Browser.storage.set(st)]: the area afterwards and what [Browser.log]
    writes. *)
Definition set (b : BrowserRpc.browser) (area : gmap string value) (st : value)
    : gmap string value * list BrowserRpc.effect :=
  (<[_key := st]> area, BrowserRpc.log b [VStr "saving st"; st]).

(** [Browser.storage.get()], [_default] being [Browser.storage._default]
    (set in the base file): the area afterwards, what is logged, and the
    value the promise is resolved with. *)
Definition get (b : BrowserRpc.browser) (_default : value) (area : gmap string value)
    : gmap string value * list BrowserRpc.effect * value :=
  let st := prop (local_get area _key) _key in
  if truthy st then (area, [], st)
  else
    (* default values *)
    let '(area', logged) := set b area _default in
    (area', logged, _default).

(** [Browser.storage.clear()] *)
Definition clear (area : gmap string value) : gmap string value := ∅.

End BrowserStorage.

(** *** Browser.capabilities and Browser.gui *)

Module BrowserGui.

(** What a gui function does to the outside: a call of a browser API, with
    or without a callback as last argument, a message sent by
    [Browser.rpc.call], or [window.close()]. *)
Inductive effect : Type :=
| Api (name : string) (args : list value)
| ApiCallback (name : string) (args : list value)
| Rpc (e : BrowserRpc.effect)
| WindowClose.

(** How a gui function ends: it has returned (an async one: its promise is
    fulfilled without waiting for the browser), it has returned a promise
    that is fulfilled once the browser calls back or answers, it has
    thrown (an async one: its promise is rejected), or it has returned a
    promise that nothing will settle. *)
Inductive finish : Type :=
| Finished
| Awaiting
| Failed (e : value)
| Stuck.

(** The parts of [Browser] the gui code reads: [_script] is set by
    [Browser.init], [_build] is [Browser.capabilities._build] and [android]
    what [Browser.capabilities.isAndroid()] answers (both from the base
    file), [browser_action] is the manifest's entry of that name, and
    [iconShown] is [Browser.gui.iconShown], undefined unless the main script
    has made it. *)
Record browser : Type := Browser {
  _script : value;
  _build : value;
  android : bool;
  browser_action : value;
  iconShown : option (gmap string value)
}.

Definition set_iconShown (this : browser) (shown : gmap string value) : browser :=
  Browser (_script this) (_build this) (android this) (browser_action this) (Some shown).

(** [Browser.capabilities.popupAsTab] *)
Definition popupAsTab (this : browser) : bool :=
  loose_eq_word (_build this) "firefox" && android this.

(** [Browser.capabilities.needsPAManualHide] *)
Definition needsPAManualHide (this : browser) : bool :=
  loose_eq_word (_build this) "firefox".

(** [Browser.capabilities.permanentIcon] *)
Definition permanentIcon (this : browser) : bool := truthy (browser_action this).

(** [Browser.capabilities.supportedIconSizes] *)
Definition supportedIconSizes : list Z := [16; 19; 20; 32; 38; 40; 64].

(** [Browser.gui._icons(private)] *)
Definition _icons (private : value) : value :=
  VObj
    (fold_left
       (fun ret size =>
          obj_set ret (to_string (VNum size))
            (VStr ("/images/pin_" +:+ (if truthy private then "" else "disabled_")
                   +:+ to_string (VNum size) +:+ ".png")))
       supportedIconSizes []).

Section Host.

(** [v == n] for a [v] that is a string, an array or an object. *)
Variable coerced_eq : value -> Z -> bool.

(** The info [Util.getIconInfo(tabId)] resolves to ([Util] is another
    file). *)
Variable getIconInfo : value -> value.

(** [Browser.gui._refreshPageAction(tabId, info)] *)
Definition _refreshPageAction (this : browser) (tabId info : value)
    : browser * list effect * finish :=
  match info with
  | VUndef | VNull => (this, [], Failed TypeError)
  | _ =>
      if truthy (prop info "hidden") || PostRPC.loose_eq coerced_eq (prop info "apiCalls") 0
      then (this, [Api "pageAction.hide" [tabId]], Finished)
      else
        (match iconShown this with
         | Some shown => set_iconShown this (<[to_string tabId := VNum 1]> shown)
         | None => this
         end,
         [Api "pageAction.setPopup"
            [VObj [("tabId", tabId);
                   ("popup", VStr ("popup.html?tabId=" +:+ to_string tabId))]];
          Api "pageAction.show" [tabId];
          Api "pageAction.setTitle"
            [VObj [("tabId", tabId); ("title", prop info "title")]];
          ApiCallback "pageAction.setIcon"
            [VObj [("tabId", tabId); ("path", _icons (prop info "private"))]]],
         Awaiting)
  end.

(** [Browser.gui._refreshBrowserAction(tabId, info)] *)
Definition _refreshBrowserAction (this : browser) (tabId info : value)
    : browser * list effect * finish :=
  match info with
  | VUndef | VNull => (this, [], Failed TypeError)
  | _ =>
      (this,
       [Api "browserAction.setTitle"
          [VObj [("tabId", tabId); ("title", prop info "title")]];
        Api "browserAction.setBadgeText"
          [VObj [("tabId", tabId);
                 ("text", VStr (to_string (js_or (prop info "apiCalls") (VStr ""))))]];
        Api "browserAction.setBadgeBackgroundColor"
          [VObj [("tabId", tabId); ("color", VStr "#b12222")]];
        Api "browserAction.setPopup"
          [VObj [("tabId", tabId);
                 ("popup",
                  VStr ("popup.html" +:+
                        (if truthy tabId then "?tabId=" +:+ to_string tabId else "")))]];
        ApiCallback "browserAction.setIcon"
          [VObj [("tabId", tabId); ("path", _icons (prop info "private"))]]],
       Awaiting)
  end.

(** [Browser.gui.refreshIcon(tabId)]; [resolve] is the promise of the rpc
    call when the refresh is delegated to the main script. *)
Definition refreshIcon (this : browser) (resolve : promise) (tabId : value)
    : browser * list effect * finish :=
  if loose_eq_word (_script this) "content"
     || (negb (loose_eq_word (_script this) "main") && needsPAManualHide this)
  then
    (this,
     [Rpc (BrowserRpc.call resolve VNull (VStr "refreshIcon") (VArr [tabId]))],
     Awaiting)
  else
    let info := getIconInfo tabId in
    if permanentIcon this
    then _refreshBrowserAction this tabId info
    else _refreshPageAction this tabId info.

(** The loop of [Browser.gui.refreshAllIcons] over the tab ids, in the
    async callback given to [browser.tabs.query]: one refresh after the
    other, each awaited (the effects are those made when the browser calls
    back each time), then [resolve()].  The finish is that of the promise
    [refreshAllIcons] returns: fulfilled by the [resolve()] after the loop,
    once the browser has called back; a refresh that fails ends the
    callback before [resolve()], and nothing settles that promise. *)
Fixpoint refresh_each (this : browser) (resolve : promise) (ids : list value)
    : browser * list effect * finish :=
  match ids with
  | [] => (this, [], Awaiting)
  | id :: rest =>
      match refreshIcon this resolve id with
      | (this', es, Failed _) => (this', es, Stuck)
      | (this', es, _) =>
          let '(this'', es', end_) := refresh_each this' resolve rest in
          (this'', es ++ es', end_)
      end
  end.

(** [Browser.gui.refreshAllIcons()], [tabs] being what [browser.tabs.query]
    hands to the callback. *)
Definition refreshAllIcons (this : browser) (resolve : promise) (tabs : list value)
    : browser * list effect * finish :=
  (* for browser action, also refresh default state (null tabId) *)
  let tabs := if permanentIcon this then tabs ++ [VObj [("id", VNull)]] else tabs in
  let '(this', es, end_) := refresh_each this resolve (map (fun tab => prop tab "id") tabs) in
  (this', ApiCallback "tabs.query" [VObj []] :: es, end_).

(** The listener the main script adds to [browser.tabs.onUpdated]. *)
Definition onUpdated (this : browser) (resolve : promise) (tabId info : value)
    : browser * list effect * finish :=
  match iconShown this with
  | None => (this, [], Failed TypeError)
  | Some shown =>
      (* only act if we have shown an icon in this tab before *)
      if negb (truthy (default VUndef (shown !! to_string tabId)))
      then (this, [], Finished)
      else
        match info with
        | VUndef | VNull => (this, [], Failed TypeError)
        | _ =>
            if loose_eq_word (prop info "status") "loading"
            then (this, [Api "pageAction.hide" [tabId]], Finished)
            else if loose_eq_word (prop info "status") "complete"
            then
              let '(this', es, _) := refreshIcon this resolve tabId in
              (this', es, Finished)
            else (this, [], Finished)
        end
  end.

(** The handler the main script registers as [refreshIcon]: what it does
    when called on [args]. *)
Definition refreshIcon_handler (this : browser) (resolve : promise) (args : list value)
    : browser * list effect * finish :=
  let tabId := parameter args 0 in
  let callerTabId := parameter args 1 in
  (* 'self' tabId in the content script means refresh its own tab *)
  refreshIcon this resolve (if loose_eq_word tabId "self" then callerTabId else tabId).

End Host.

(** The handler the main script registers as [closeTab]. *)
Definition closeTab_handler (args : list value) : list effect :=
  [Api "tabs.remove" [parameter args 0]].

(** [Browser.gui.closePopup()] *)
Definition closePopup (this : browser) (resolve : promise) : list effect * finish :=
  if negb (loose_eq_word (_script this) "popup")
  then ([], Failed (VStr "only called from popup"))
  else if popupAsTab this
  then ([Rpc (BrowserRpc.call resolve VNull (VStr "closeTab") (VArr []))], Finished)
  else ([WindowClose], Finished).

(** [Browser.gui.getCallUrl(tabId)]: [tabs] is what [browser.tabs.query]
    hands to the callback when asked for the active tab, [answer] what the
    rpc call is resolved with, if it ever is. *)
Definition getCallUrl (resolve : promise) (tabId : value) (tabs : list value)
    (answer : option value) : list effect * settlement :=
  let ask tabId :=
    ([Rpc (BrowserRpc.call resolve tabId (VStr "getState") (VArr []))],
     match answer with
     | None => Unsettled
     | Some state => Fulfilled (if truthy state then prop state "callUrl" else state)
     end) in
  if truthy tabId then ask tabId
  else
    let query :=
      ApiCallback "tabs.query"
        [VObj [("active", VBool true); ("lastFocusedWindow", VBool true)]] in
    match tabs with
    | [] | VUndef :: _ | VNull :: _ => ([query], Unsettled)
    | tab :: _ =>
        let '(es, end_) := ask (prop tab "id") in
        (query :: es, end_)
    end.

(** The message a gui function hands to the browser through
    [Browser.rpc.call]. *)
Definition message_of (e : effect) : option value :=
  match e with
  | Rpc e => sent_message e
  | _ => None
  end.

(** The messages among the effects of a gui function. *)
Definition messages (es : list effect) : list value := omap message_of es.

End BrowserGui.

(** Registering handlers one after the other on the Channel Binding: the
    object afterwards and everything done on the way. *)
Fixpoint register_all (b : BrowserRpc.browser) (entries : list (value * handler))
    : BrowserRpc.browser * list BrowserRpc.effect :=
  match entries with
  | [] => (b, [])
  | (name, h) :: rest =>
      let '(b', es) := BrowserRpc.register b name h in
      let '(b'', es') := register_all b' rest in
      (b'', es ++ es')
  end.

(** The shapes a run of [PostRPC._receiveMessage] on [this] can have:
    nothing done, a log, an error raised before anything is done, a call
    of a handler with or without a response, a promise resolved, a response
    matching no call. *)
Inductive shape (this : PostRPC.instance) : PostRPC.outcome → Prop :=
| shape_ignored : shape this (PostRPC.ignored this)
| shape_logged text :
    shape this (PostRPC.Outcome this [PostRPC.ConsoleLog text] [] (Fulfilled VUndef))
| shape_failed this' e :
    this' = this ∨
    (∃ key, this' = PostRPC.set_calls this (delete key (PostRPC._calls this))) →
    shape this (PostRPC.Outcome this' [] [] (Rejected e))
| shape_called name args later_ end_ callId res :
    later_ = [] ∨
    later_ =
      [PostRPC._sendMessage this (VObj [("callId", callId); ("value", VArr [res])])] →
    shape this (PostRPC.Outcome this [PostRPC.Invoke name args] later_ end_)
| shape_returned key p v :
    PostRPC._calls this !! key = Some p →
    shape this
      (PostRPC.Outcome (PostRPC.set_calls this (delete key (PostRPC._calls this)))
         [PostRPC.Resolve p v] [] (Fulfilled VUndef))
| shape_unmatched key :
    PostRPC._calls this !! key = None →
    shape this
      (PostRPC.Outcome (PostRPC.set_calls this (delete key (PostRPC._calls this)))
         [] [] (Fulfilled VUndef)).

(** More sample data. *)
Module MoreSamples.

(** The content script of a tab and the main script of a Chrome build whose
    manifest has a browser action; the main script of a build without
    browser action, which has made [Browser.gui.iconShown]; the popup of
    Firefox on Android. *)
Definition content_script : BrowserGui.browser :=
  BrowserGui.Browser (VStr "content") (VStr "chrome") false (VObj []) None.
Definition main_chrome : BrowserGui.browser :=
  BrowserGui.Browser (VStr "main") (VStr "chrome") false (VObj []) None.
Definition main_page_action : BrowserGui.browser :=
  BrowserGui.Browser (VStr "main") (VStr "chrome") false VUndef (Some ∅).
Definition popup_android : BrowserGui.browser :=
  BrowserGui.Browser (VStr "popup") (VStr "firefox") true VUndef None.

(** An icon info as [Util.getIconInfo] makes them. *)
Definition info_of (hidden private : bool) (apiCalls : Z) : value :=
  VObj [("hidden", VBool hidden); ("private", VBool private);
        ("apiCalls", VNum apiCalls); ("title", VStr "Location Guard")].

(** A [getIconInfo] answering the same shown, private info with 3 calls for
    every tab. *)
Definition busy : value -> value := fun _ => info_of false true 3.


(** A stored state and a default one. *)
Definition settings : value := VObj [("paused", VBool true)].
Definition defaults : value := VObj [("paused", VBool false)].

(** A response to call 7 whose [value] is a number, not an array. *)
Definition bad_response_7 : value :=
  VObj [("__PostRPC_page", VObj [("callId", VNum 7); ("value", VNum 5)])].

(** The handlers of the main script as the listener sees them, and the main
    script's Method Registry once both are registered. *)
Definition refreshIcon_stub : handler := fun _ => HPromise (Fulfilled VUndef).
Definition closeTab_stub : handler := fun _ => HValue VUndef.
Definition main_entries : list (value * handler) :=
  [(VStr "refreshIcon", refreshIcon_stub); (VStr "closeTab", closeTab_stub)].
Definition main_rpc : BrowserRpc.browser :=
  fst (register_all (BrowserRpc.Browser false false None) main_entries).

(** The state a content script answers [getState] with, and that content
    script's Method Registry. *)
Definition page_state : value := VObj [("callUrl", VStr "https://example.org/")].
Definition getState_stub : handler := fun _ => HValue page_state.
Definition content_rpc : BrowserRpc.browser :=
  fst (BrowserRpc.register (BrowserRpc.Browser false false None) (VStr "getState")
         getState_stub).

End MoreSamples.

(** ** Properties of the two bindings *)

(** *** Numbers as property names

    Two numbers that print alike are the same number: a call id names one
    entry of the Call Registry. *)

Lemma strip_zeros_spec fuel n m z :
  strip_zeros fuel n = (m, z) → (m * 10 ^ z = n)%N.
Proof.
  revert n m z. induction fuel as [|fuel IH]; intros n m z; cbn [strip_zeros].
  - intros [= <- <-]. lia.
  - destruct (negb (n =? 0) && (n mod 10 =? 0))%N eqn:Hc.
    + destruct (strip_zeros fuel (n / 10)%N) as [m' z'] eqn:Hs.
      intros [= <- <-]. apply IH in Hs.
      apply andb_prop in Hc as [_ Hm]. apply N.eqb_eq in Hm.
      rewrite N.pow_succ_r'. pose proof (N.div_mod n 10). lia.
    + intros [= <- <-]. lia.
Qed.

Lemma digits_go x s : digits s = true → digits (pretty_N_go x s) = true.
Proof.
  revert s. induction (N.lt_wf_0 x) as [x _ IH]; intros s Hs.
  assert (x = 0 ∨ 0 < x)%N as [->|?] by lia.
  - by rewrite pretty_N_go_0.
  - rewrite pretty_N_go_step by done. apply IH.
    { by apply N.div_lt. }
    cbn [digits]. rewrite Hs, andb_true_r.
    unfold pretty_N_char. by repeat case_match.
Qed.

Lemma digits_pretty (m : N) : digits (pretty m) = true.
Proof.
  unfold pretty, pretty_N. case_decide; [done|]. by apply digits_go.
Qed.

Lemma pretty_go_length x s :
  (String.length s <= String.length (pretty_N_go x s))%nat.
Proof.
  revert s. induction (N.lt_wf_0 x) as [x _ IH]; intros s.
  assert (x = 0 ∨ 0 < x)%N as [->|?] by lia; [by rewrite pretty_N_go_0|].
  rewrite pretty_N_go_step by done.
  etrans; [|by eapply IH, N.div_lt]; simpl; lia.
Qed.

Lemma pretty_nonempty (m : N) : pretty m ≠ EmptyString.
Proof.
  unfold pretty, pretty_N. case_decide; [done|].
  rewrite pretty_N_go_step by lia. intros Heq.
  pose proof (pretty_go_length (m `div` 10)%N (String (pretty_N_char (m `mod` 10)) "")) as Hl.
  rewrite Heq in Hl. simpl in Hl. lia.
Qed.

Lemma string_cons_inj c (a b : string) : String c a = String c b → a = b.
Proof. by intros [= ->]. Qed.

Lemma digits_split a b x y :
  digits a = true → digits b = true →
  a +:+ String "e"%char x = b +:+ String "e"%char y → a = b ∧ x = y.
Proof.
  revert b. induction a as [|c a IH]; intros [|d b]; cbn [digits String.append].
  - by intros _ _ [= ->].
  - intros _ Hd [= <- _]. done.
  - intros Hd _ [= -> _]. done.
  - intros [_ Ha]%andb_prop [_ Hb]%andb_prop [= -> Heq].
    destruct (IH b Ha Hb Heq) as [-> ->]. done.
Qed.

Lemma exponent_form_inj a b : exponent_form a = exponent_form b → a = b.
Proof.
  unfold exponent_form.
  destruct (strip_zeros _ a) as [m1 z1] eqn:H1.
  destruct (strip_zeros _ b) as [m2 z2] eqn:H2.
  apply strip_zeros_spec in H1, H2. subst a b.
  pose proof (digits_pretty m1) as D1. pose proof (digits_pretty m2) as D2.
  pose proof (pretty_nonempty m1) as N1. pose proof (pretty_nonempty m2) as N2.
  destruct (pretty m1) as [|c1 r1] eqn:P1; [done|].
  destruct (pretty m2) as [|c2 r2] eqn:P2; [done|].
  cbn [digits] in D1, D2.
  apply andb_prop in D1 as [_ D1]. apply andb_prop in D2 as [_ D2].
  cbn [String.append]. intros [= -> Heq].
  assert (r1 = r2 ∧ pretty (N.of_nat (String.length r1) + z1)%N
                  = pretty (N.of_nat (String.length r2) + z2)%N) as [Hr Hk].
  
  { destruct r1 as [|e1 r1], r2 as [|e2 r2]; cbn [String.append] in Heq.
    - by injection Heq.
    - by injection Heq.
    - by injection Heq.
    - set (k1 := pretty _) in Heq. set (k2 := pretty _) in Heq.
      change (String "."%char (String e1 r1 +:+ String "e"%char ("+" +:+ k1))
            = String "."%char (String e2 r2 +:+ String "e"%char ("+" +:+ k2))) in Heq.
      apply string_cons_inj in Heq.
      apply digits_split in Heq as [Hr Heq]; [|done..].
      split; [done|]. by injection Heq. }
  subst r2. apply (inj pretty) in Hk.
  assert (m1 = m2) as -> by (apply (inj pretty); congruence).
  assert (z1 = z2) as -> by lia. done.
Qed.

Lemma has_e_app a b : has_e (a +:+ b) = has_e a || has_e b.
Proof. induction a as [|c a IH]; [done|]. simpl. by rewrite IH, orb_assoc. Qed.

Lemma digits_has_e s : digits s = true → has_e s = false.
Proof.
  induction s as [|c s IH]; [done|]. cbn [digits has_e].
  intros [Hc Hs]%andb_prop. rewrite (IH Hs), orb_false_r.
  destruct (Ascii.eqb_spec c "e") as [->|]; done.
Qed.

Lemma pretty_Z_has_e (n : Z) : has_e (pretty n) = false.
Proof.
  destruct n as [|p|p]; [done|..].
  - apply digits_has_e, (digits_pretty (N.pos p)).
  - change (pretty (Z.neg p)) with ("-" +:+ pretty (N.pos p)).
    rewrite has_e_app, (digits_has_e _ (digits_pretty (N.pos p))). done.
Qed.

Lemma exponent_form_has_e (n : N) : has_e (exponent_form n) = true.
Proof.
  unfold exponent_form. destruct (strip_zeros _ n) as [m z].
  pose proof (pretty_nonempty m). destruct (pretty m) as [|c r]; [done|].
  rewrite !has_e_app. cbn. by rewrite !orb_true_r.
Qed.

Lemma exponent_form_head (n : N) : ∃ c r, exponent_form n = String c r ∧ is_digit c = true.
Proof.
  unfold exponent_form. destruct (strip_zeros _ n) as [m z].
  pose proof (pretty_nonempty m). pose proof (digits_pretty m) as D.
  destruct (pretty m) as [|c r]; [done|].
  apply andb_prop in D as [D _]. cbn [String.append]. eauto.
Qed.

Lemma number_to_string_inj a b : number_to_string a = number_to_string b → a = b.
Proof.
  unfold number_to_string.
  destruct (Z.abs a <? _) eqn:Ha, (Z.abs b <? _) eqn:Hb.
  - apply (inj pretty).
  - intros Heq. apply (f_equal has_e) in Heq.
    rewrite pretty_Z_has_e, has_e_app, exponent_form_has_e, orb_true_r in Heq. done.
  - intros Heq. apply (f_equal has_e) in Heq.
    rewrite pretty_Z_has_e, has_e_app, exponent_form_has_e, orb_true_r in Heq. done.
  - destruct (Z.ltb_spec a 0), (Z.ltb_spec b 0); cbn [String.append].
    + intros Heq%string_cons_inj%exponent_form_inj. lia.
    + destruct (exponent_form_head (Z.abs_N b)) as (c & r & -> & Hc).
      intros [= <- _]. done.
    + destruct (exponent_form_head (Z.abs_N a)) as (c & r & -> & Hc).
      intros [= -> _]. done.
    + intros Heq%exponent_form_inj. lia.
Qed.


Lemma to_string_num_inj (a b : Z) : to_string (VNum a) = to_string (VNum b) → a = b.
Proof. apply number_to_string_inj. Qed.

(** Below [1e21] a number prints with all its digits. *)
Lemma to_string_num_small (n : Z) :
  Z.abs n < 1000000000000000000000 → to_string (VNum n) = pretty n.
Proof.
  intros Hn. cbn [to_string]. unfold number_to_string.
  by destruct (Z.ltb_spec (Z.abs n) 1000000000000000000000); [|lia].
Qed.

Section Properties.

Context `{Runtime}.

Variable console : bool.
Variable coerced_eq : value -> Z -> bool.
Variable object_arguments : list (string * value) -> option (list value).

Import PostRPC.

Local Abbreviation receive := (PostRPC._receiveMessage console coerced_eq object_arguments).
Local Abbreviation deliver := (PostRPC.deliver console coerced_eq object_arguments).
Local Abbreviation round_trip := (PostRPC.round_trip console coerced_eq object_arguments).
Local Abbreviation array_like := (PostRPC.array_like object_arguments).
Local Abbreviation loose_eq := (PostRPC.loose_eq coerced_eq).

Lemma set_calls_same (this : instance) : set_calls this (_calls this) = this.
Proof. by destruct this. Qed.

(** A read finds what the registry holds itself. *)
Lemma read_own (methods : gmap string handler) (name : string) (h : handler) :
  methods !! name = Some h → read_member methods name = Member h.
Proof. unfold read_member. by intros ->. Qed.

(** A read of a name the registry does not hold, and no object inherits,
    finds nothing. *)
Lemma read_none (methods : gmap string handler) (name : string) :
  methods !! name = None → methods !! "__proto__" = None →
  Object_prototype name = None → read_member methods name = NoMember.
Proof. unfold read_member. by intros -> -> ->. Qed.

(** A payload carrying something under the namespace is an object. *)
Lemma prop_truthy (v : value) (k : string) : truthy (prop v k) = true → truthy v = true.
Proof. by destruct v. Qed.

Lemma prop_defined (v : value) (k : string) : prop v k ≠ VUndef → truthy v = true.
Proof. by destruct v. Qed.

(** The envelope [_receiveMessage] works on. *)
Lemma receive_unwrap (this : instance) (event_data data : value) :
  prop event_data (_ns this) = data →
  truthy data = true →
  (if truthy event_data then prop event_data (_ns this) else event_data) = data.
Proof.
  intros Hdata Htrue. rewrite <- Hdata in Htrue.
  by rewrite (prop_truthy _ _ Htrue).
Qed.

(** The return-value branch in full. *)
Lemma receive_response (this : instance) (event_data data : value) :
  prop event_data (_ns this) = data →
  truthy data = true →
  truthy (prop data "method") = false →
  receive this event_data =
    let key := to_string (prop data "callId") in
    let this' := set_calls this (delete key (_calls this)) in
    match _calls this !! key with
    | Some p =>
        match array_like (prop data "value") with
        | None => Outcome this' [] [] (Rejected TypeError)
        | Some vs => Outcome this' [Resolve p (hd VUndef vs)] [] (Fulfilled VUndef)
        end
    | None =>
        match Object_prototype key with
        | None => ignored this'
        | Some f =>
            match array_like (prop data "value") with
            | None => Outcome this' [] [] (Rejected TypeError)
            | Some vs =>
                match f vs with
                | HThrow e => Outcome this' [] [] (Rejected e)
                | _ => ignored this'
                end
            end
        end
    end.
Proof.
  intros Hdata Htrue Hmethod. unfold _receiveMessage.
  rewrite (receive_unwrap _ _ _ Hdata Htrue), Htrue, Hmethod. reflexivity.
Qed.

(** The message-call branch in full. *)
Lemma receive_request (this : instance) (event_data data : value) :
  prop event_data (_ns this) = data →
  truthy (prop data "method") = true →
  receive this event_data =
    if loose_eq (prop data "from") (_id this) then ignored this
    else
      match read_member (_methods this) (to_string (prop data "method")) with
      | BadRead e => Outcome this [] [] (Rejected e)
      | NoMember =>
          if console
          then Outcome this
                 [ConsoleLog ("PostRPC: no handler for " +:+ to_string (prop data "method"))]
                 [] (Fulfilled VUndef)
          else Outcome this [] [] (Rejected ReferenceError)
      | Member h =>
          match array_like (prop data "args") with
          | None => Outcome this [] [] (Rejected TypeError)
          | Some args =>
              let invoke := Invoke (to_string (prop data "method")) args in
              let reply res :=
                _sendMessage this
                  (VObj [("callId", prop data "callId"); ("value", VArr [res])]) in
              match h args with
              | HThrow e => Outcome this [invoke] [] (Rejected e)
              | HValue res => Outcome this [invoke] [reply res] (Fulfilled VUndef)
              | HPromise (Fulfilled res) =>
                  Outcome this [invoke] [reply res] (Fulfilled VUndef)
              | HPromise (Rejected e) => Outcome this [invoke] [] (Rejected e)
              | HPromise Unsettled => Outcome this [invoke] [] Unsettled
              end
          end
      end.
Proof.
  intros Hdata Hmethod. unfold _receiveMessage.
  pose proof (prop_truthy _ _ Hmethod) as Htrue.
  rewrite (receive_unwrap _ _ _ Hdata Htrue), Htrue, Hmethod. reflexivity.
Qed.


(** A response envelope under the namespace makes the payload an object. *)
Lemma envelope_truthy (data : value) (k : string) (v : value) :
  prop data k = v → v ≠ VUndef → truthy data = true.
Proof. intros <- Hv. by apply prop_defined in Hv. Qed.

(** C2. Dispatch of a response envelope (no [method], a [value] sequence):
    when the Call Registry holds a Pending Call under the envelope's
    correlation id, exactly that entry is removed and exactly its
    continuation is fired, with the first element of [value]; every other
    Pending Call stays as it was.  When it holds none, no continuation is
    fired and the object is unchanged.  The Method Registry is never
    touched. *)
Theorem response_resolves_matching_call
    (this : instance) (event_data data : value) (vs : list value) :
  prop event_data (_ns this) = data →
  truthy (prop data "method") = false →
  prop data "value" = VArr vs →
  let key := to_string (prop data "callId") in
  let o := receive this event_data in
  _methods (state o) = _methods this ∧
  match _calls this !! key with
  | Some p =>
      now o ++ later o = [Resolve p (hd VUndef vs)] ∧
      _calls (state o) = delete key (_calls this) ∧
      _calls (state o) !! key = None ∧
      ∀ k, k ≠ key → _calls (state o) !! k = _calls this !! k
  | None => now o ++ later o = [] ∧ state o = this
  end.
Proof.
  intros Hdata Hmethod Hvalue key o.
  assert (truthy data = true) as Htrue by (by eapply envelope_truthy).
  subst o. rewrite (receive_response _ _ _ Hdata Htrue Hmethod).
  cbv zeta. fold key. rewrite Hvalue. cbn [PostRPC.array_like].
  destruct (_calls this !! key) as [p|] eqn:Hc; cbn.
  - repeat split; [apply lookup_delete_eq|].
    intros k Hk. by apply lookup_delete_ne.
  - rewrite delete_id, set_calls_same by done.
    destruct (Object_prototype key) as [f|]; [|done].
    by destruct (f vs).
Qed.

(** Two responses for two outstanding calls resolve each its own call, in
    whichever order they arrive, and leave the same registry. *)
Lemma responses_in_any_order
    (this : instance) (m1 m2 d1 d2 v1 v2 : value) (p1 p2 : promise) :
  prop m1 (_ns this) = d1 → prop m2 (_ns this) = d2 →
  truthy (prop d1 "method") = false → truthy (prop d2 "method") = false →
  prop d1 "value" = VArr [v1] → prop d2 "value" = VArr [v2] →
  to_string (prop d1 "callId") ≠ to_string (prop d2 "callId") →
  _calls this !! to_string (prop d1 "callId") = Some p1 →
  _calls this !! to_string (prop d2 "callId") = Some p2 →
  deliver this [m1; m2] =
    (set_calls this (delete (to_string (prop d2 "callId"))
                      (delete (to_string (prop d1 "callId")) (_calls this))),
     [Resolve p1 v1; Resolve p2 v2]) ∧
  deliver this [m2; m1] =
    (set_calls this (delete (to_string (prop d2 "callId"))
                      (delete (to_string (prop d1 "callId")) (_calls this))),
     [Resolve p2 v2; Resolve p1 v1]).
Proof.
  intros H1 H2 Hm1 Hm2 Hv1 Hv2 Hne Hc1 Hc2.
  assert (truthy d1 = true) as Ht1 by (by eapply envelope_truthy).
  assert (truthy d2 = true) as Ht2 by (by eapply envelope_truthy).
  split; cbn [PostRPC.deliver].
  - rewrite (receive_response this _ _ H1 Ht1 Hm1). cbv zeta.
    rewrite Hc1, Hv1. cbn.
    rewrite (receive_response _ m2 d2) by done. cbv zeta. cbn.
    rewrite lookup_delete_ne, Hc2, Hv2 by done. reflexivity.
  - rewrite (receive_response this _ _ H2 Ht2 Hm2). cbv zeta.
    rewrite Hc2, Hv2. cbn.
    rewrite (receive_response _ m1 d1) by done. cbv zeta. cbn.
    rewrite lookup_delete_ne, Hc1, Hv1 by done. cbn.
    by rewrite delete_delete.
Qed.


(** Reading back the field just written under the namespace. *)
Lemma prop_namespace (ns : string) (message : value) :
  prop (VObj [(ns, message)]) ns = message.
Proof. cbn. by rewrite String.eqb_refl. Qed.

(** The request [call] posts, and the object it leaves. *)
Lemma call_request (this : instance) (resolve : promise) (method args : value) (callId : Z) :
  call this resolve method args callId =
    (set_calls this (<[to_string (VNum callId) := resolve]> (_calls this)),
     PostMessage
       (VObj [(_ns this,
               VObj [("method", method);
                     ("args", js_or args (VArr []));
                     ("callId", VNum callId); ("from", VNum (_id this))])])
       (_targetOrigin this)).
Proof. reflexivity. Qed.

(** What a callee holding [h] under the request's method name does with a
    request from another object. *)
Lemma receive_registered
    (this : instance) (event_data data : value) (h : handler) (args : list value) :
  prop event_data (_ns this) = data →
  truthy (prop data "method") = true →
  loose_eq (prop data "from") (_id this) = false →
  _methods this !! to_string (prop data "method") = Some h →
  array_like (prop data "args") = Some args →
  receive this event_data =
    let invoke := Invoke (to_string (prop data "method")) args in
    let reply res :=
      _sendMessage this (VObj [("callId", prop data "callId"); ("value", VArr [res])]) in
    match h args with
    | HThrow e => Outcome this [invoke] [] (Rejected e)
    | HValue res => Outcome this [invoke] [reply res] (Fulfilled VUndef)
    | HPromise (Fulfilled res) => Outcome this [invoke] [reply res] (Fulfilled VUndef)
    | HPromise (Rejected e) => Outcome this [invoke] [] (Rejected e)
    | HPromise Unsettled => Outcome this [invoke] [] Unsettled
    end.
Proof.
  intros Hdata Hmethod Hfrom Hh Hargs.
  rewrite (receive_request _ _ _ Hdata Hmethod), Hfrom, (read_own _ _ _ Hh), Hargs.
  reflexivity.
Qed.



Lemma posted_message (payload targetOrigin : value) :
  posted [PostMessage payload targetOrigin] = [payload].
Proof. reflexivity. Qed.


(** Delivering one message. *)
Lemma deliver_one (this : instance) (m : value) :
  deliver this [m] =
    (state (receive this m), now (receive this m) ++ later (receive this m)).
Proof. cbn. by rewrite app_nil_r. Qed.



(** Loopback filtering where it works: a request envelope with a non-empty
    (truthy) method name whose sender id is the receiving object's own id is
    ignored: no handler is called, nothing is posted, no promise is
    resolved, and the object, with both registries, is unchanged.  In
    particular the request an object posts by [call] with such a method
    name, coming back to it, does nothing. *)
Theorem own_request_ignored (this : instance) (event_data data : value) :
  prop event_data (_ns this) = data →
  truthy (prop data "method") = true →
  prop data "from" = VNum (_id this) →
  receive this event_data = ignored this ∧
  ∀ (resolve : promise) (method args : value) (callId : Z),
    truthy method = true →
    deliver (fst (call this resolve method args callId))
      (posted [snd (call this resolve method args callId)]) =
    (fst (call this resolve method args callId), []).
Proof.
  intros Hdata Hmethod Hfrom. split.
  - rewrite (receive_request _ _ _ Hdata Hmethod), Hfrom. cbn.
    by rewrite Z.eqb_refl.
  - intros resolve method args callId Htrue.
    rewrite call_request. cbn [fst snd]. rewrite posted_message, deliver_one.
    erewrite receive_request; [|apply prop_namespace|exact Htrue].
    cbn. by rewrite Z.eqb_refl.
Qed.


(** What the Channel listener does with a request object whose method is
    registered and whose arguments ([message.args || []]) are the array [l]. *)
Lemma listener_registered
    (b : BrowserRpc.browser) (fs : list (string * value)) (sender : value)
    (methods : gmap string handler) (h : handler) (l : list value) :
  BrowserRpc._methods b = Some methods →
  methods !! to_string (field fs "method") = Some h →
  js_or (field fs "args") (VArr []) = VArr l →
  BrowserRpc._listener b (VObj fs) sender =
    let logged :=
      BrowserRpc.log b [VStr "RPC: got message"; VArr [VObj fs; sender]] in
    let args := l ++ [BrowserRpc.sender_tabId sender] in
    let invoke := BrowserRpc.Invoke (to_string (field fs "method")) args in
    match h args with
    | HThrow e => BrowserRpc.Run (logged ++ [invoke]) [] (Throw e) None
    | HPromise (Fulfilled v) =>
        BrowserRpc.Run (logged ++ [invoke]) [BrowserRpc.Reply v] (Return (VBool true)) None
    | HPromise (Rejected e) =>
        BrowserRpc.Run (logged ++ [invoke]) [] (Return (VBool true)) (Some e)
    | HPromise Unsettled =>
        BrowserRpc.Run (logged ++ [invoke]) [] (Return (VBool true)) None
    | HValue res =>
        BrowserRpc.Run (logged ++ [invoke; BrowserRpc.Reply res]) []
          (Return (VBool false)) None
    end.
Proof.
  intros Hm Hh Hargs. unfold BrowserRpc._listener.
  rewrite Hm. cbn [prop]. rewrite (read_own _ _ _ Hh), Hargs. reflexivity.
Qed.

(** Logging makes no reply and calls no handler. *)
Lemma replies_log
    (b : BrowserRpc.browser) (args : list value) (es : list BrowserRpc.effect) :
  BrowserRpc.replies (BrowserRpc.log b args ++ es) = BrowserRpc.replies es.
Proof.
  unfold BrowserRpc.log.
  by destruct (BrowserRpc.debugging b), (BrowserRpc.background_console b).
Qed.

Lemma invocations_log
    (b : BrowserRpc.browser) (args : list value) (es : list BrowserRpc.effect) :
  BrowserRpc.invocations (BrowserRpc.log b args ++ es) = BrowserRpc.invocations es.
Proof.
  unfold BrowserRpc.log.
  by destruct (BrowserRpc.debugging b), (BrowserRpc.background_console b).
Qed.

(** The handler is called once by the listener, on the request's arguments
    followed by the sender's tab id. *)
Lemma listener_invocation
    (b : BrowserRpc.browser) (fs : list (string * value)) (sender : value)
    (methods : gmap string handler) (h : handler) (l : list value) :
  BrowserRpc._methods b = Some methods →
  methods !! to_string (field fs "method") = Some h →
  js_or (field fs "args") (VArr []) = VArr l →
  BrowserRpc.invocations (BrowserRpc.now (BrowserRpc._listener b (VObj fs) sender)) =
    [l ++ [BrowserRpc.sender_tabId sender]].
Proof.
  intros Hm Hh Hargs. rewrite (listener_registered _ _ _ _ _ _ Hm Hh Hargs). cbv zeta.
  destruct (h _) as [res|[v|e|]|e]; cbn [BrowserRpc.now]; by rewrite invocations_log.
Qed.

(** C4. Channel Binding, a request dispatched to a registered handler: when
    the handler returns a Promise the listener returns [true] without having
    replied, and the reply is made by the reaction to that promise, with the
    value it is fulfilled with (no reply while it is unsettled, none if it
    is rejected); when the handler returns a plain value the listener
    replies with it before returning, and returns [false]. *)
Theorem listener_sentinel
    (b : BrowserRpc.browser) (fs : list (string * value)) (sender : value)
    (methods : gmap string handler) (h : handler) (l : list value) :
  BrowserRpc._methods b = Some methods →
  methods !! to_string (field fs "method") = Some h →
  js_or (field fs "args") (VArr []) = VArr l →
  let r := BrowserRpc._listener b (VObj fs) sender in
  match h (l ++ [BrowserRpc.sender_tabId sender]) with
  | HPromise res =>
      BrowserRpc.returned r = Return (VBool true) ∧
      BrowserRpc.replies (BrowserRpc.now r) = [] ∧
      BrowserRpc.later r =
        match res with Fulfilled v => [BrowserRpc.Reply v] | _ => [] end
  | HValue v =>
      BrowserRpc.returned r = Return (VBool false) ∧
      BrowserRpc.replies (BrowserRpc.now r) = [v] ∧
      BrowserRpc.later r = []
  | HThrow e => BrowserRpc.returned r = Throw e
  end.
Proof.
  intros Hm Hh Hargs r. subst r.
  rewrite (listener_registered _ _ _ _ _ _ Hm Hh Hargs). cbv zeta.
  destruct (h _) as [res|[v|e|]|e];
    cbn [BrowserRpc.now BrowserRpc.later BrowserRpc.returned];
    rewrite ?replies_log; done.
Qed.

(** C5. Sender augmentation.  Channel Binding: the registered handler is
    called once, on the request's arguments followed by exactly one more,
    the sender's tab id ([null] for a sender outside any tab), so that
    requests from senders of different tab ids reach it with different last
    arguments.  Window Binding: the handler is called on the request's
    arguments as they are. *)
Theorem sender_augmentation
    (b : BrowserRpc.browser) (fs : list (string * value)) (sender : value)
    (methods : gmap string handler) (h : handler) (l : list value)
    (this : instance) (event_data data : value) (h' : handler) (args : list value) :
  BrowserRpc._methods b = Some methods →
  methods !! to_string (field fs "method") = Some h →
  js_or (field fs "args") (VArr []) = VArr l →
  prop event_data (_ns this) = data →
  truthy (prop data "method") = true →
  loose_eq (prop data "from") (_id this) = false →
  _methods this !! to_string (prop data "method") = Some h' →
  prop data "args" = VArr args →
  let called s :=
    BrowserRpc.invocations (BrowserRpc.now (BrowserRpc._listener b (VObj fs) s)) in
  called sender = [l ++ [BrowserRpc.sender_tabId sender]] ∧
  (∀ sender', BrowserRpc.sender_tabId sender' ≠ BrowserRpc.sender_tabId sender →
     ∃ args1 args2, called sender' = [args1] ∧ called sender = [args2] ∧
       last args1 = Some (BrowserRpc.sender_tabId sender') ∧
       last args2 = Some (BrowserRpc.sender_tabId sender) ∧
       last args1 ≠ last args2) ∧
  invocations (now (receive this event_data)) = [args].
Proof.
  intros Hm Hh Hargs Hdata Hmethod Hfrom Hh' Hargs' called. subst called. cbv beta.
  rewrite !(listener_invocation _ _ _ _ _ _ Hm Hh Hargs). repeat split.
  - intros sender' Hne. rewrite (listener_invocation _ _ _ _ _ _ Hm Hh Hargs).
    eexists _, _. repeat split; rewrite ?last_snoc; congruence.
  - erewrite receive_registered; [|done|done|done|exact Hh'|by rewrite Hargs'].
    cbv zeta. by destruct (h' args) as [res|[v|e|]|e].
Qed.

(** C10. Missing arguments are the empty list.  Window Binding: [call] with
    [args] omitted (undefined) or otherwise falsy does what it does with the
    empty array: it records the Pending Call under the call id and posts,
    under the namespace, the request of that method and call id, from this
    object, whose [args] field is the empty array.  Channel Binding: a
    request whose [args] field is absent (or falsy) reaches the handler
    registered under its method name as if it were the empty array: that
    handler is called, on the sender's tab id alone, and what it returns is
    answered as for any request. *)
Theorem missing_args_default
    (this : instance) (resolve : promise) (method args : value) (callId : Z)
    (b : BrowserRpc.browser) (fs : list (string * value)) (sender : value)
    (methods : gmap string handler) (h : handler) :
  truthy args = false →
  BrowserRpc._methods b = Some methods →
  methods !! to_string (field fs "method") = Some h →
  truthy (field fs "args") = false →
  call this resolve method args callId =
    (set_calls this (<[to_string (VNum callId) := resolve]> (_calls this)),
     PostMessage
       (VObj [(_ns this,
               VObj [("method", method); ("args", VArr []);
                     ("callId", VNum callId); ("from", VNum (_id this))])])
       (_targetOrigin this)) ∧
  call this resolve method args callId = call this resolve method (VArr []) callId ∧
  BrowserRpc._listener b (VObj fs) sender =
    (let logged :=
       BrowserRpc.log b [VStr "RPC: got message"; VArr [VObj fs; sender]] in
     let args := [BrowserRpc.sender_tabId sender] in
     let invoke := BrowserRpc.Invoke (to_string (field fs "method")) args in
     match h args with
     | HThrow e => BrowserRpc.Run (logged ++ [invoke]) [] (Throw e) None
     | HPromise (Fulfilled v) =>
         BrowserRpc.Run (logged ++ [invoke]) [BrowserRpc.Reply v] (Return (VBool true)) None
     | HPromise (Rejected e) =>
         BrowserRpc.Run (logged ++ [invoke]) [] (Return (VBool true)) (Some e)
     | HPromise Unsettled =>
         BrowserRpc.Run (logged ++ [invoke]) [] (Return (VBool true)) None
     | HValue res =>
         BrowserRpc.Run (logged ++ [invoke; BrowserRpc.Reply res]) []
           (Return (VBool false)) None
     end) ∧
  BrowserRpc.invocations (BrowserRpc.now (BrowserRpc._listener b (VObj fs) sender)) =
    [[BrowserRpc.sender_tabId sender]].
Proof.
  intros Hargs Hm Hh Hfalsy.
  assert (js_or (field fs "args") (VArr []) = VArr []) as Hl
    by (unfold js_or; by rewrite Hfalsy).
  split_and!.
  - rewrite call_request. unfold js_or. by rewrite Hargs.
  - rewrite !call_request. unfold js_or. by rewrite Hargs.
  - by rewrite (listener_registered b fs sender methods h []).
  - by rewrite (listener_invocation b fs sender methods h []).
Qed.

(** A payload under another namespace is other traffic. *)
Lemma receive_foreign_namespace (this : instance) (ns : string) (message : value) :
  String.eqb ns (_ns this) = false →
  receive this (VObj [(ns, message)]) = ignored this.
Proof. intros Hns. unfold _receiveMessage. cbn. by rewrite Hns. Qed.

(** A round trip whose callee posts nothing leaves the caller as [call]
    left it, having done nothing. *)
Lemma round_trip_unanswered
    (caller callee : instance) (resolve : promise) (method args : value) (callId : Z) :
  (∀ payload targetOrigin,
     snd (call caller resolve method args callId) = PostMessage payload targetOrigin →
     posted (now (receive callee payload) ++ later (receive callee payload)) = []) →
  round_trip caller callee resolve method args callId =
    (fst (call caller resolve method args callId), []).
Proof.
  intros Hnone. unfold PostRPC.round_trip.
  rewrite call_request in *. cbn [fst snd] in *.
  rewrite posted_message, deliver_one. by erewrite Hnone.
Qed.

(** The Pending Call [call] records. *)
Lemma call_pending (this : instance) (resolve : promise) (method args : value) (callId : Z) :
  _calls (fst (call this resolve method args callId)) !! to_string (VNum callId) = Some resolve.
Proof. cbn. apply lookup_insert_eq. Qed.


(** C7 (amended). A request whose handler fails, by throwing [e] or by
    returning a promise rejected with [e]: the dispatcher does not catch [e]
    and makes no response, at once or later.  Window Binding: the promise the
    dispatch callback returns to its invoker is rejected with [e], nothing is
    posted, the object is unchanged, and the caller stays pending.  Channel
    Binding: a thrown [e] leaves the listener as an exception; a rejected
    promise leaves the listener returning [true], the rejection staying
    unhandled on the promise made by [then]; [replyHandler] is never
    called. *)
Theorem handler_failure_unanswered
    (this : instance) (event_data data : value) (h : handler) (args : list value)
    (caller : instance) (resolve : promise) (callId : Z)
    (b : BrowserRpc.browser) (fs : list (string * value)) (sender : value)
    (methods : gmap string handler) (h' : handler) (l : list value) (e : value) :
  prop event_data (_ns this) = data →
  truthy (prop data "method") = true →
  loose_eq (prop data "from") (_id this) = false →
  _methods this !! to_string (prop data "method") = Some h →
  prop data "args" = VArr args →
  h args = HThrow e ∨ h args = HPromise (Rejected e) →
  BrowserRpc._methods b = Some methods →
  methods !! to_string (field fs "method") = Some h' →
  js_or (field fs "args") (VArr []) = VArr l →
  h' (l ++ [BrowserRpc.sender_tabId sender]) = HThrow e ∨
  h' (l ++ [BrowserRpc.sender_tabId sender]) = HPromise (Rejected e) →
  receive this event_data =
    Outcome this [Invoke (to_string (prop data "method")) args] [] (Rejected e) ∧
  round_trip caller this resolve (prop data "method") (VArr args) callId =
    (fst (call caller resolve (prop data "method") (VArr args) callId), []) ∧
  _calls (fst (call caller resolve (prop data "method") (VArr args) callId))
    !! to_string (VNum callId) = Some resolve ∧
  let r := BrowserRpc._listener b (VObj fs) sender in
  BrowserRpc.replies (BrowserRpc.now r ++ BrowserRpc.later r) = [] ∧
  match h' (l ++ [BrowserRpc.sender_tabId sender]) with
  | HThrow _ => BrowserRpc.returned r = Throw e ∧ BrowserRpc.unhandled r = None
  | _ => BrowserRpc.returned r = Return (VBool true) ∧ BrowserRpc.unhandled r = Some e
  end.
Proof.
  intros Hdata Hmethod Hfrom Hh Hargs Hfail Hm Hh' Hl Hfail'.
  split; [|split; [|split]].
  - erewrite receive_registered; [|done|done|done|exact Hh|by rewrite Hargs].
    cbv zeta. by destruct Hfail as [-> | ->].
  - apply round_trip_unanswered. rewrite call_request. cbn [snd].
    intros payload origin [= <- _].
    destruct (String.eqb (_ns caller) (_ns this)) eqn:Hns.
    + apply String.eqb_eq in Hns.
      erewrite receive_request; [|rewrite <- Hns; apply prop_namespace|exact Hmethod].
      cbn [prop field String.eqb Ascii.eqb Bool.eqb js_or truthy].
      rewrite (read_own _ _ _ Hh).
      destruct (loose_eq (VNum (_id caller)) (_id this)); [reflexivity|].
      cbn [PostRPC.array_like]. by destruct Hfail as [-> | ->].
    + by rewrite receive_foreign_namespace.
  - apply call_pending.
  - cbv zeta. rewrite (listener_registered _ _ _ _ _ _ Hm Hh' Hl). cbv zeta.
    destruct Hfail' as [-> | ->];
      cbn [BrowserRpc.now BrowserRpc.later BrowserRpc.returned BrowserRpc.unhandled];
      rewrite app_nil_r, replies_log; done.
Qed.

(** C8 (amended). The request a call sends.  Window Binding: one object
    with a single key, the namespace [__PostRPC_<name>] of the object, whose
    value carries the method name, the argument array, the number drawn as
    correlation id for this call (under which the Pending Call is recorded)
    and the sender's instance id.  Channel Binding: the bare object
    [{method, args}], under no namespace key and with no correlation id, sent
    to the tab or to the runtime with the promise's [resolve] as callback. *)
Theorem request_wire_format
    (this : instance) (resolve : promise) (method args : value) (callId : Z)
    (tabId name args' : value) :
  snd (call this resolve method args callId) =
    PostMessage
      (VObj [(_ns this,
              VObj [("method", method); ("args", js_or args (VArr []));
                    ("callId", VNum callId); ("from", VNum (_id this))])])
      (_targetOrigin this) ∧
  _calls (fst (call this resolve method args callId)) !! to_string (VNum callId) =
    Some resolve ∧
  _ns (new name (_id this) (_targetOrigin this)) = "__PostRPC_" +:+ to_string name ∧
  BrowserRpc.call resolve tabId name args' =
    (if truthy tabId then BrowserRpc.TabsSendMessage tabId else BrowserRpc.RuntimeSendMessage)
      (VObj [("method", name); ("args", args')]) resolve.
Proof.
  repeat split.
  - apply call_pending.
  - unfold BrowserRpc.call. by destruct (truthy tabId).
Qed.

(** C9 (amended). The Call Registry is keyed by correlation id, so the ids
    of the outstanding Pending Calls are pairwise distinct; [call] draws its
    id without looking at them.  After [call] the drawn id holds the new
    continuation and every other entry is as before; an id that was not
    outstanding adds one Pending Call, an id that was outstanding replaces
    the older Pending Call under it. *)
Theorem call_allocation
    (this : instance) (resolve : promise) (method args : value) (callId : Z) :
  let key := to_string (VNum callId) in
  let this' := fst (call this resolve method args callId) in
  _calls this' !! key = Some resolve ∧
  (∀ k, k ≠ key → _calls this' !! k = _calls this !! k) ∧
  (∀ id, id ≠ callId →
     _calls this' !! to_string (VNum id) = _calls this !! to_string (VNum id)) ∧
  (_calls this !! key = None → size (_calls this') = S (size (_calls this))) ∧
  (∀ old, _calls this !! key = Some old →
     size (_calls this') = size (_calls this) ∧
     _calls this' = <[key := resolve]> (delete key (_calls this))).
Proof.
  intros key this'. subst this'. rewrite call_request. cbn [fst set_calls _calls].
  fold key. split; [apply lookup_insert_eq|]. split; [|split; [|split]].
  - intros k Hk. by rewrite lookup_insert_ne.
  - intros id Hid. rewrite lookup_insert_ne; [done|].
    subst key. intros Heq. by apply to_string_num_inj in Heq.
  - intros Hnone. by apply map_size_insert_None.
  - intros old Hold. split.
    + by apply map_size_insert_Some.
    + by rewrite insert_delete_eq.
Qed.

End Properties.

(** ** The properties on sample data, and where the stated claims fail *)

Import Samples.

Section OnSamples.

Existing Instance no_function_members.



(** The response to call 7 resolves promise 0 of [page_a_waiting]. *)
Lemma response_resolves_matching_call_witness :
  PostRPC._methods
    (PostRPC.state (PostRPC._receiveMessage true no_coercion no_object_arguments
                      page_a_waiting (response_7 (VNum 1)))) =
  PostRPC._methods page_a_waiting ∧
  PostRPC.now (PostRPC._receiveMessage true no_coercion no_object_arguments
                 page_a_waiting (response_7 (VNum 1))) ++
  PostRPC.later (PostRPC._receiveMessage true no_coercion no_object_arguments
                   page_a_waiting (response_7 (VNum 1))) =
  [PostRPC.Resolve 0%nat (VNum 1)].
Proof.
  pose proof (response_resolves_matching_call true no_coercion no_object_arguments
                page_a_waiting (response_7 (VNum 1))
                (VObj [("callId", VNum 7); ("value", VArr [VNum 1])]) [VNum 1]
                eq_refl eq_refl eq_refl) as [Hmethods Hcalls].
  split; [exact Hmethods|]. exact (proj1 Hcalls).
Defined.

(** [page_a] ignores its own request. *)
Lemma own_request_ignored_witness :
  PostRPC._receiveMessage true no_coercion no_object_arguments
    page_a (request_from_a (VStr "echo")) = PostRPC.ignored page_a.
Proof.
  exact (proj1 (own_request_ignored true no_coercion no_object_arguments
                  page_a (request_from_a (VStr "echo"))
                  (VObj [("method", VStr "echo"); ("args", VArr []);
                         ("callId", VNum 7); ("from", VNum 11)])
                  eq_refl eq_refl eq_refl)).
Defined.

(** C3, which the code breaks: the request [page_a] posts for the method of
    empty name carries its own id, comes back to it (send and receive
    target being one window), and is not ignored as the header of
    post-rpc.js says sent messages are, but taken for the response to that
    very call, whose promise it resolves with undefined and whose Pending
    Call it removes: [if(data.method)] tests the name for truth where its
    presence is meant. *)
Lemma own_request_taken_for_response :
  snd (PostRPC.call page_a 0%nat (VStr "") (VArr []) 7) =
    PostRPC.PostMessage (request_from_a (VStr "")) (VStr "*") ∧
  PostRPC._calls (fst (PostRPC.call page_a 0%nat (VStr "") (VArr []) 7))
    !! to_string (VNum 7) = Some 0%nat ∧
  PostRPC.deliver true no_coercion no_object_arguments
    (fst (PostRPC.call page_a 0%nat (VStr "") (VArr []) 7))
    [request_from_a (VStr "")] =
  (page_a, [PostRPC.Resolve 0%nat VUndef]).
Proof. split_and!; reflexivity. Qed.

(** [whoCalled], a plain function, answers at once and the listener returns
    [false]. *)
Lemma listener_sentinel_witness :
  BrowserRpc.returned
    (BrowserRpc._listener main_script
       (VObj (channel_request (VStr "whoCalled") (VArr [VNum 1]))) (from_tab 3)) =
    Return (VBool false) ∧
  BrowserRpc.replies
    (BrowserRpc.now
       (BrowserRpc._listener main_script
          (VObj (channel_request (VStr "whoCalled") (VArr [VNum 1]))) (from_tab 3))) =
    [VArr [VNum 1; VNum 3]] ∧
  BrowserRpc.later
    (BrowserRpc._listener main_script
       (VObj (channel_request (VStr "whoCalled") (VArr [VNum 1]))) (from_tab 3)) = [].
Proof.
  exact (listener_sentinel main_script
           (channel_request (VStr "whoCalled") (VArr [VNum 1])) (from_tab 3)
           {[ "whoCalled" := whoCalled ]} whoCalled [VNum 1]
           eq_refl eq_refl eq_refl).
Defined.

(** [whoCalled] called from tab 3 and from tab 4. *)
Lemma sender_augmentation_witness :
  BrowserRpc.invocations
    (BrowserRpc.now
       (BrowserRpc._listener main_script
          (VObj (channel_request (VStr "whoCalled") (VArr [VNum 1]))) (from_tab 3))) =
    [[VNum 1; VNum 3]] ∧
  BrowserRpc.invocations
    (BrowserRpc.now
       (BrowserRpc._listener main_script
          (VObj (channel_request (VStr "whoCalled") (VArr [VNum 1]))) (from_tab 4))) =
    [[VNum 1; VNum 4]] ∧
  PostRPC.invocations
    (PostRPC.now
       (PostRPC._receiveMessage true no_coercion no_object_arguments
          (PostRPC.register page_b (VStr "whoCalled") whoCalled)
          (request_from_a (VStr "whoCalled")))) = [[]].
Proof.
  pose proof (λ sender,
    sender_augmentation true no_coercion no_object_arguments main_script
      (channel_request (VStr "whoCalled") (VArr [VNum 1])) sender
      {[ "whoCalled" := whoCalled ]} whoCalled [VNum 1]
      (PostRPC.register page_b (VStr "whoCalled") whoCalled)
      (request_from_a (VStr "whoCalled"))
      (VObj [("method", VStr "whoCalled"); ("args", VArr []);
             ("callId", VNum 7); ("from", VNum 11)])
      whoCalled []
      eq_refl eq_refl eq_refl eq_refl eq_refl eq_refl eq_refl eq_refl) as H.
  split; [exact (proj1 (H (from_tab 3)))|].
  split; [exact (proj1 (H (from_tab 4)))|].
  exact (proj2 (proj2 (H (from_tab 3)))).
Defined.



(** A name nobody registered but every object inherits is called and
    answered, on both bindings: [toString] is [Object.prototype.toString],
    which answers [[object Null]]; the caller's promise is resolved with
    it. *)
Lemma inherited_method_answered :
  PostRPC._methods page_b !! "toString" = None ∧
  PostRPC._receiveMessage true no_coercion no_object_arguments
    page_b (request_from_a (VStr "toString")) =
    PostRPC.Outcome page_b [PostRPC.Invoke "toString" []]
      [PostRPC.PostMessage
         (VObj [("__PostRPC_page",
                 VObj [("callId", VNum 7); ("value", VArr [VStr "[object Null]"])])])
         (VStr "*")]
      (Fulfilled VUndef) ∧
  PostRPC.round_trip true no_coercion no_object_arguments
    page_a page_b 0%nat (VStr "toString") (VArr []) 7 =
    (page_a, [PostRPC.Resolve 0%nat (VStr "[object Null]")]) ∧
  BrowserRpc._listener main_script
    (VObj (channel_request (VStr "toString") (VArr []))) (from_tab 3) =
    BrowserRpc.Run
      [BrowserRpc.Invoke "toString" [VNum 3]; BrowserRpc.Reply (VStr "[object Null]")]
      [] (Return (VBool false)) None.
Proof. split_and!; reflexivity. Qed.

(** From [1e21] on a number prints in exponent form: the objects made by
    [new PostRPC(1e21)] and [new PostRPC("1e+21")] share a namespace, and a
    handler registered under the number is found under the string. *)
Lemma exponent_names_meet :
  to_string (VNum 1000000000000000000000) = "1e+21" ∧
  to_string (VNum 999999999999999999999) = "999999999999999999999" ∧
  to_string (VNum (-1500000000000000000000)) = "-1.5e+21" ∧
  PostRPC._ns (PostRPC.new (VNum 1000000000000000000000) 11 (VStr "*")) =
    PostRPC._ns (PostRPC.new (VStr "1e+21") 22 (VStr "*")) ∧
  PostRPC._methods (PostRPC.register page_b (VNum 1000000000000000000000) echo)
    !! "1e+21" = Some echo.
Proof. split_and!; reflexivity. Qed.

(** Where the global scope declares no [console], the test [if(console)]
    raises: the dispatch of a request for an unknown method ends in a
    rejected promise. *)
Lemma unknown_method_without_console :
  PostRPC._receiveMessage false no_coercion no_object_arguments
    page_b (request_from_a (VStr "doesNotExist")) =
    PostRPC.Outcome page_b [] [] (Rejected ReferenceError).
Proof. reflexivity. Qed.

(** A response whose id is a name the Call Registry inherits: [__proto__]
    reads as an object without [apply], and the dispatch raises, each time;
    [constructor] reads as [Object], which is called, and nothing shows. *)
Lemma inherited_call_id :
  PostRPC._receiveMessage true no_coercion no_object_arguments page_a_waiting
    (VObj [("__PostRPC_page",
            VObj [("callId", VStr "__proto__"); ("value", VArr [VNum 1])])]) =
    PostRPC.Outcome page_a_waiting [] [] (Rejected TypeError) ∧
  PostRPC._receiveMessage true no_coercion no_object_arguments page_a_waiting
    (VObj [("__PostRPC_page",
            VObj [("callId", VStr "constructor"); ("value", VArr [VNum 1])])]) =
    PostRPC.ignored page_a_waiting.
Proof. split; reflexivity. Qed.

(** [failing] and [rejecting] on both bindings. *)
Lemma handler_failure_unanswered_witness :
  PostRPC._receiveMessage true no_coercion no_object_arguments
    (PostRPC.register page_b (VStr "fail") failing) (request_from_a (VStr "fail")) =
    PostRPC.Outcome (PostRPC.register page_b (VStr "fail") failing)
      [PostRPC.Invoke "fail" []] [] (Rejected (VStr "boom")) ∧
  BrowserRpc._listener
    (fst (BrowserRpc.register main_script (VStr "fail") rejecting))
    (VObj (channel_request (VStr "fail") (VArr []))) (from_tab 3) =
    BrowserRpc.Run [BrowserRpc.Invoke "fail" [VNum 3]] [] (Return (VBool true))
      (Some (VStr "boom")).
Proof.
  pose proof (handler_failure_unanswered true no_coercion no_object_arguments
                (PostRPC.register page_b (VStr "fail") failing)
                (request_from_a (VStr "fail"))
                (VObj [("method", VStr "fail"); ("args", VArr []);
                       ("callId", VNum 7); ("from", VNum 11)])
                failing [] page_a 0%nat 7
                (fst (BrowserRpc.register main_script (VStr "fail") rejecting))
                (channel_request (VStr "fail") (VArr [])) (from_tab 3)
                (<[ "fail" := rejecting ]> {[ "whoCalled" := whoCalled ]})
                rejecting [] (VStr "boom")
                eq_refl eq_refl eq_refl eq_refl eq_refl (or_introl eq_refl)
                eq_refl eq_refl eq_refl (or_intror eq_refl)) as (H1 & _ & _ & _ & _).
  split; [exact H1|reflexivity].
Defined.

(** C7 as stated fails on the Channel Binding for a rejected promise: the
    listener returns [true] to the browser, which called it, and the
    rejection goes to the promise made by [then], not to that caller. *)
Lemma rejection_not_propagated :
  rejecting [VNum 3] = HPromise (Rejected (VStr "boom")) ∧
  BrowserRpc.returned
    (BrowserRpc._listener
       (fst (BrowserRpc.register main_script (VStr "fail") rejecting))
       (VObj (channel_request (VStr "fail") (VArr []))) (from_tab 3)) =
    Return (VBool true) ∧
  BrowserRpc.unhandled
    (BrowserRpc._listener
       (fst (BrowserRpc.register main_script (VStr "fail") rejecting))
       (VObj (channel_request (VStr "fail") (VArr []))) (from_tab 3)) =
    Some (VStr "boom").
Proof. split_and!; reflexivity. Qed.

(** C8 as stated fails on the Channel Binding: the message of a call is the
    bare [{method, args}], its [method] at top level and no correlation id
    in it. *)
Lemma channel_request_bare :
  BrowserRpc.call 0%nat (VNum 5) (VStr "getState") (VArr []) =
    BrowserRpc.TabsSendMessage (VNum 5)
      (VObj [("method", VStr "getState"); ("args", VArr [])]) 0%nat ∧
  prop (VObj [("method", VStr "getState"); ("args", VArr [])]) "method" = VStr "getState" ∧
  prop (VObj [("method", VStr "getState"); ("args", VArr [])]) "callId" = VUndef.
Proof. split_and!; reflexivity. Qed.

(** A call of [page_a_waiting] that draws 8. *)
Lemma call_allocation_witness :
  PostRPC._calls (fst (PostRPC.call page_a_waiting 1%nat (VStr "echo") (VArr []) 8))
    !! to_string (VNum 8) = Some 1%nat ∧
  PostRPC._calls (fst (PostRPC.call page_a_waiting 1%nat (VStr "echo") (VArr []) 8))
    !! to_string (VNum 7) = PostRPC._calls page_a_waiting !! to_string (VNum 7).
Proof.
  pose proof (call_allocation page_a_waiting 1%nat (VStr "echo") (VArr []) 8)
    as (H1 & _ & H3 & _).
  split; [exact H1|]. apply H3. lia.
Defined.

(** C9 as stated fails: 7 is a number [call] can draw while call 7 of
    promise 0 is outstanding; the new call takes the entry over, the
    response then resolves promise 1 and nothing is left to resolve
    promise 0. *)
Lemma call_reuses_outstanding_id :
  PostRPC.random_id 7 ∧
  PostRPC._calls page_a_waiting !! to_string (VNum 7) = Some 0%nat ∧
  PostRPC._calls (fst (PostRPC.call page_a_waiting 1%nat (VStr "echo") (VArr []) 7))
    !! to_string (VNum 7) = Some 1%nat ∧
  PostRPC.deliver true no_coercion no_object_arguments
    (fst (PostRPC.call page_a_waiting 1%nat (VStr "echo") (VArr []) 7))
    [response_7 (VNum 1)] =
  (page_a, [PostRPC.Resolve 1%nat (VNum 1)]).
Proof. split_and!; [unfold PostRPC.random_id; lia | reflexivity..]. Qed.

(** [call] without arguments, and a Channel request without [args]. *)
Lemma missing_args_default_witness :
  PostRPC.call page_a 0%nat (VStr "echo") VUndef 7 =
    PostRPC.call page_a 0%nat (VStr "echo") (VArr []) 7 ∧
  snd (PostRPC.call page_a 0%nat (VStr "echo") VUndef 7) =
    PostRPC.PostMessage
      (VObj [("__PostRPC_page",
              VObj [("method", VStr "echo"); ("args", VArr []);
                    ("callId", VNum 7); ("from", VNum 11)])])
      (VStr "*") ∧
  PostRPC._calls (fst (PostRPC.call page_a 0%nat (VStr "echo") VUndef 7)) !! "7" =
    Some 0%nat ∧
  BrowserRpc._listener main_script (VObj [("method", VStr "whoCalled")]) from_page =
    BrowserRpc.Run
      [BrowserRpc.Invoke "whoCalled" [VNull]; BrowserRpc.Reply (VArr [VNull])]
      [] (Return (VBool false)) None.
Proof.
  pose proof (missing_args_default page_a 0%nat (VStr "echo") VUndef 7
                main_script [("method", VStr "whoCalled")] from_page
                {[ "whoCalled" := whoCalled ]} whoCalled
                eq_refl eq_refl eq_refl eq_refl) as (H1 & H2 & H3 & _).
  split_and!; [exact H2 | by rewrite H1 | by rewrite H1 | by rewrite H3].
Defined.

End OnSamples.

(** ** Further properties of PostRPC *)

Section WindowDispatch.

Context `{Runtime}.

Variable console : bool.
Variable coerced_eq : value -> Z -> bool.
Variable object_arguments : list (string * value) -> option (list value).

Import PostRPC.

Local Abbreviation receive := (PostRPC._receiveMessage console coerced_eq object_arguments).
Local Abbreviation deliver := (PostRPC.deliver console coerced_eq object_arguments).
Local Abbreviation round_trip := (PostRPC.round_trip console coerced_eq object_arguments).

Lemma receive_shape (this : instance) (event_data : value) :
  shape this (receive this event_data).
Proof.
  unfold _receiveMessage.
  destruct (truthy (if truthy event_data then prop event_data (_ns this) else event_data));
    cbn [negb]; [|constructor].
  destruct (truthy (prop _ "method")).
  - destruct (loose_eq _ _ _); [constructor|].
    destruct (read_member _ _) as [|h|e].
    + destruct console; constructor. by left.
    + destruct (array_like _ _) as [args|]; [|constructor; by left].
      destruct (h args) as [res|[res|e|]|e];
        (by eapply shape_called; right) ||
        (by eapply (shape_called _ _ _ _ _ VUndef VUndef); left).
    + constructor. by left.
  - destruct (_calls this !! _) as [p|] eqn:Hc.
    + destruct (array_like _ _) as [vs|]; [by constructor|].
      constructor. right. eauto.
    + destruct (Object_prototype _) as [f|]; [|by constructor].
      destruct (array_like _ _) as [vs|]; [|constructor; right; eauto].
      destruct (f vs); (by constructor) || (constructor; right; eauto).
Qed.

(** One run leaves the object as it was, or with one Pending Call less. *)
Lemma receive_state (this : instance) (event_data : value) :
  state (receive this event_data) = this ∨
  ∃ key, state (receive this event_data) = set_calls this (delete key (_calls this)).
Proof.
  destruct (receive_shape this event_data) as [|text|this' e Hs| | |];
    cbn [state ignored]; eauto.
Qed.

(** X1. Whatever messages are delivered to a PostRPC object, in whatever
    order, dispatch never changes its id, its namespace, its target origin
    or its Method Registry, and never adds a Pending Call: the Call Registry
    afterwards is part of the one before. *)
Theorem deliver_keeps_registrations (this : instance) (payloads : list value) :
  _id (fst (deliver this payloads)) = _id this ∧
  _ns (fst (deliver this payloads)) = _ns this ∧
  _targetOrigin (fst (deliver this payloads)) = _targetOrigin this ∧
  _methods (fst (deliver this payloads)) = _methods this ∧
  _calls (fst (deliver this payloads)) ⊆ _calls this.
Proof.
  revert this. induction payloads as [|m rest IH]; intros this; [done|].
  cbn [PostRPC.deliver].
  destruct (deliver (state (receive this m)) rest) as [this' es] eqn:Hrest.
  specialize (IH (state (receive this m))). rewrite Hrest in IH. cbn [fst] in *.
  destruct IH as (Hid & Hns & Horigin & Hmethods & Hcalls).
  destruct (receive_state this m) as [Hs | [key Hs]]; rewrite Hs in *; [done|].
  cbn [_id _ns _targetOrigin _methods _calls set_calls] in *. split_and!; try done.
  etrans; [exact Hcalls|]. apply delete_subseteq.
Qed.

(** X2. One message makes the dispatcher do at most one thing: it calls at
    most one handler or resolves at most one promise, never both, and it
    posts at most one message, which it does only when it has called a
    handler. *)
Theorem one_message_one_action (this : instance) (event_data : value) :
  let es := now (receive this event_data) ++ later (receive this event_data) in
  (length (invocations es) + length (resolved es) ≤ 1)%nat ∧
  (length (posted es) ≤ length (invocations es))%nat.
Proof.
  destruct (receive_shape this event_data) as [|text|this' e Hs|? ? ? ? ? ? Hl| |];
    cbn; try lia.
  destruct Hl as [-> | ->]; cbn; lia.
Qed.

(** X3. A message posted by the dispatcher is a response, and a response
    starts nothing: whatever PostRPC object receives it, no handler is
    called and nothing is posted in return.  Messages cannot go back and
    forth on their own. *)
Theorem responses_start_nothing
    (this that : instance) (event_data payload : value) :
  payload ∈ posted (now (receive this event_data) ++ later (receive this event_data)) →
  invocations (now (receive that payload) ++ later (receive that payload)) = [] ∧
  posted (now (receive that payload) ++ later (receive that payload)) = [].
Proof.
  intros Hin.
  assert (∃ callId res,
    payload = VObj [(_ns this, VObj [("callId", callId); ("value", VArr [res])])])
    as (callId & res & ->).
  { destruct (receive_shape this event_data) as [|text|this' e Hs|? ? ? ? ? ? Hl| |];
      cbn in Hin; try by apply elem_of_nil in Hin.
    destruct Hl as [-> | ->]; cbn in Hin; [by apply elem_of_nil in Hin|].
    apply list_elem_of_singleton in Hin. eauto. }
  destruct (String.eqb (_ns this) (_ns that)) eqn:Hns.
  - apply String.eqb_eq in Hns.
    erewrite receive_response; [|rewrite Hns; apply prop_namespace|done|done].
    cbv zeta. destruct (_calls that !! _).
    + by destruct (array_like _ _).
    + destruct (Object_prototype _) as [f|]; [|done].
      cbn [prop field String.eqb Ascii.eqb Bool.eqb PostRPC.array_like].
      by destruct (f [res]).
  - by rewrite receive_foreign_namespace.
Qed.

(** X4. A response is used once: delivered again, whether or not it
    matched a Pending Call the first time, it resolves nothing, starts
    nothing and changes nothing.  The second run is one that did nothing at
    all when the response's id is no name the Call Registry inherits; for an
    inherited name ([toString], [__proto__]) it may raise, each time. *)
Theorem response_replay_ignored (this : instance) (event_data data : value) :
  prop event_data (_ns this) = data →
  truthy data = true →
  truthy (prop data "method") = false →
  let first := receive this event_data in
  let second := receive (state first) event_data in
  now second ++ later second = [] ∧
  state second = state first ∧
  _calls (state first) !! to_string (prop data "callId") = None ∧
  (Object_prototype (to_string (prop data "callId")) = None →
   second = ignored (state first)).
Proof.
  intros Hdata Htrue Hmethod first second. subst second first.
  assert (state (receive this event_data) =
            set_calls this (delete (to_string (prop data "callId")) (_calls this)))
    as ->.
  { rewrite (receive_response _ _ _ _ _ _ Hdata Htrue Hmethod). cbv zeta.
    destruct (_calls this !! _); [by destruct (array_like _ _)|].
    destruct (Object_prototype _) as [f|]; [|done].
    destruct (array_like _ _) as [vs|]; [|done]. by destruct (f vs). }
  rewrite (receive_response _ _ _ _ event_data data); [|done..].
  cbv zeta. cbn [_calls set_calls]. rewrite lookup_delete_eq, delete_delete_eq.
  destruct (Object_prototype _) as [f|]; [|done].
  destruct (array_like _ _) as [vs|]; [|done].
  by destruct (f vs).
Qed.

(** X5. A response whose [value] is a boolean, a number or a string, for
    a call that is outstanding: the Pending Call is removed, but [apply]
    raises before the continuation is called, so the promise of that call is
    not resolved, by this response or by a later one. *)
Theorem malformed_response_loses_call
    (this : instance) (event_data data : value) (p : promise) :
  prop event_data (_ns this) = data →
  truthy (prop data "method") = false →
  primitive (prop data "value") = true →
  _calls this !! to_string (prop data "callId") = Some p →
  receive this event_data =
    Outcome (set_calls this (delete (to_string (prop data "callId")) (_calls this)))
      [] [] (Rejected TypeError) ∧
  _calls (state (receive this event_data)) !! to_string (prop data "callId") = None.
Proof.
  intros Hdata Hmethod Hvalue Hp.
  assert (truthy data = true) as Htrue.
  { eapply (envelope_truthy data "value"); [done|]. intros Hu. by rewrite Hu in Hvalue. }
  rewrite (receive_response _ _ _ _ _ _ Hdata Htrue Hmethod). cbv zeta. rewrite Hp.
  destruct (prop data "value"); try done; cbn; by rewrite lookup_delete_eq.
Qed.

(** X6. [call] with [args] that is truthy but a boolean, a number or a
    string, not an array: whatever the callee holds, its [apply] raises
    before any handler is called, nothing is posted back, and the caller's
    call stays pending. *)
Theorem call_with_non_array_args_unanswered
    (caller callee : instance) (resolve : promise) (method args : value) (callId : Z) :
  truthy args = true →
  primitive args = true →
  round_trip caller callee resolve method args callId =
    (fst (call caller resolve method args callId), []) ∧
  invocations
    (snd (deliver callee (posted [snd (call caller resolve method args callId)]))) = [].
Proof.
  intros Htrue Hprim.
  assert (∀ payload targetOrigin,
    snd (call caller resolve method args callId) = PostMessage payload targetOrigin →
    posted (now (receive callee payload) ++ later (receive callee payload)) = [] ∧
    invocations (now (receive callee payload) ++ later (receive callee payload)) = [])
    as Hcallee.
  { rewrite call_request. cbn [snd]. unfold js_or. rewrite Htrue.
    intros payload origin [= <- _].
    destruct (String.eqb (_ns caller) (_ns callee)) eqn:Hns;
      [|by rewrite receive_foreign_namespace].
    apply String.eqb_eq in Hns.
    destruct (truthy method) eqn:Hmethod.
    - erewrite receive_request; [|rewrite <- Hns; apply prop_namespace|exact Hmethod].
      cbn [prop field String.eqb Ascii.eqb Bool.eqb].
      destruct (loose_eq _ _ _); [done|].
      destruct (read_member _ _) as [|h|e]; [by destruct console| |done].
      by destruct args.
    - erewrite receive_response; [|rewrite <- Hns; apply prop_namespace|done|exact Hmethod].
      cbv zeta. destruct (_calls callee !! _); [by destruct (array_like _ _)|].
      destruct (Object_prototype _) as [f|]; [|done].
      destruct (array_like _ _) as [vs|]; [|done]. by destruct (f vs). }
  split.
  - apply round_trip_unanswered. intros payload origin Hp. by apply (Hcallee _ _ Hp).
  - destruct (call caller resolve method args callId) as [caller1 [payload origin| | |]] eqn:Hc;
      try (by rewrite call_request in Hc).
    cbn [snd]. rewrite posted_message, deliver_one. cbn [snd].
    by apply (Hcallee payload origin).
Qed.

(** X7. PostRPC objects made with names that print differently have
    different namespaces, and objects of different namespaces do not hear
    each other: a call on one, delivered to the other, is ignored there and
    stays pending. *)
Theorem names_isolate
    (name1 name2 : value) (id1 id2 : Z) (origin1 origin2 : value)
    (caller callee : instance) (resolve : promise) (method args : value) (callId : Z) :
  to_string name1 ≠ to_string name2 →
  _ns caller = _ns (new name1 id1 origin1) →
  _ns callee = _ns (new name2 id2 origin2) →
  round_trip caller callee resolve method args callId =
    (fst (call caller resolve method args callId), []) ∧
  deliver callee (posted [snd (call caller resolve method args callId)]) = (callee, []).
Proof.
  intros Hne Hcaller Hcallee.
  assert (String.eqb (_ns caller) (_ns callee) = false) as Hns.
  { apply String.eqb_neq. rewrite Hcaller, Hcallee. unfold new. cbn [_ns].
    intros Heq. apply Hne. cbn [String.append] in Heq. by injection Heq. }
  split.
  - apply round_trip_unanswered. rewrite call_request. cbn [snd].
    intros payload origin [= <- _]. by rewrite receive_foreign_namespace.
  - rewrite call_request. cbn [snd]. rewrite posted_message, deliver_one.
    by rewrite receive_foreign_namespace.
Qed.



End WindowDispatch.

(** ** Further properties of Browser.rpc *)

Section ChannelDispatch.

Context `{Runtime}.

Lemma replies_logged (b : BrowserRpc.browser) (args : list value) :
  BrowserRpc.replies (BrowserRpc.log b args) = [].
Proof. rewrite <- (app_nil_r (BrowserRpc.log b args)). apply replies_log. Qed.

Lemma invocations_logged (b : BrowserRpc.browser) (args : list value) :
  BrowserRpc.invocations (BrowserRpc.log b args) = [].
Proof. rewrite <- (app_nil_r (BrowserRpc.log b args)). apply invocations_log. Qed.

(** Registering leaves a Method Registry. *)
Lemma register_defined (b : BrowserRpc.browser) (name : value) (h : handler) :
  is_Some (BrowserRpc._methods (fst (BrowserRpc.register b name h))).
Proof. unfold BrowserRpc.register. by destruct (BrowserRpc._methods b). Qed.

(** Once there is a Method Registry, registering adds no listener. *)
Lemma register_all_installed
    (b : BrowserRpc.browser) (entries : list (value * handler)) :
  is_Some (BrowserRpc._methods b) →
  snd (register_all b entries) = [] ∧
  is_Some (BrowserRpc._methods (fst (register_all b entries))).
Proof.
  revert b. induction entries as [|[name h] rest IH]; intros b Hsome; [done|].
  cbn [register_all].
  destruct (BrowserRpc.register b name h) as [b' es] eqn:Hreg.
  destruct (register_all b' rest) as [b'' es'] eqn:Hrest.
  pose proof (register_defined b name h) as Hdef. rewrite Hreg in Hdef.
  destruct (IH b' Hdef) as [Hes Hm]. rewrite Hrest in Hes, Hm. cbn [fst snd] in *.
  unfold BrowserRpc.register in Hreg. destruct Hsome as [methods Hsome].
  rewrite Hsome in Hreg. injection Hreg as <- <-. by subst es'.
Qed.

(** X9. However many handlers are registered on the Channel Binding, the
    listener is added to [browser.runtime.onMessage] exactly once, by the
    first registration, and never again. *)
Theorem listener_added_once
    (debugging background_console : bool) (entries : list (value * handler)) :
  entries ≠ [] →
  snd (register_all (BrowserRpc.Browser debugging background_console None) entries) =
    [BrowserRpc.AddListener] ∧
  ∀ more,
    snd (register_all
           (fst (register_all (BrowserRpc.Browser debugging background_console None)
                   entries))
           more) = [].
Proof.
  intros Hne. destruct entries as [|[name h] rest]; [done|].
  cbn [register_all BrowserRpc.register BrowserRpc._methods].
  set (b' := BrowserRpc.set_methods _ _).
  destruct (register_all_installed b' rest) as [Hes Hm]; [by eexists|].
  destruct (register_all b' rest) as [b'' es'] eqn:Hrest. cbn [fst snd] in *.
  subst es'. split; [done|].
  intros more. by apply register_all_installed.
Qed.

(** X10. One message makes the listener call at most one handler and
    reply at most once, and never without having called a handler; when it
    returns [true] it has not replied yet, and only then can a reply come
    later. *)
Theorem listener_replies_at_most_once (b : BrowserRpc.browser) (message sender : value) :
  let r := BrowserRpc._listener b message sender in
  (length (BrowserRpc.replies (BrowserRpc.now r ++ BrowserRpc.later r))
     ≤ length (BrowserRpc.invocations (BrowserRpc.now r)))%nat ∧
  (length (BrowserRpc.invocations (BrowserRpc.now r)) ≤ 1)%nat ∧
  (BrowserRpc.returned r = Return (VBool true) → BrowserRpc.replies (BrowserRpc.now r) = []) ∧
  (BrowserRpc.later r ≠ [] → BrowserRpc.returned r = Return (VBool true)).
Proof.
  unfold BrowserRpc._listener.
  repeat case_match; cbn [BrowserRpc.now BrowserRpc.later BrowserRpc.returned];
    repeat rewrite <- app_assoc;
    rewrite ?app_nil_r, ?replies_log, ?invocations_log, ?replies_logged,
      ?invocations_logged;
    cbn; split_and!; (lia || done).
Qed.

(** X11. Round trip on the Channel Binding: the message [Browser.rpc.call]
    hands to the browser, dispatched by a listener that holds [h] under the
    method name (any name, the empty one too), makes [h] run once on the
    call's arguments followed by the sender's tab id, arguments that are
    omitted or falsy counting as none, and the reply carries what [h]
    returns or what its promise is fulfilled with. *)
Theorem channel_round_trip
    (b : BrowserRpc.browser) (methods : gmap string handler) (h : handler)
    (resolve : promise) (tabId name args : value) (a : list value)
    (sender message : value) :
  BrowserRpc._methods b = Some methods →
  methods !! to_string name = Some h →
  js_or args (VArr []) = VArr a →
  sent_message (BrowserRpc.call resolve tabId name args) = Some message →
  let r := BrowserRpc._listener b message sender in
  BrowserRpc.invocations (BrowserRpc.now r) = [a ++ [BrowserRpc.sender_tabId sender]] ∧
  BrowserRpc.replies (BrowserRpc.now r ++ BrowserRpc.later r) =
    match h (a ++ [BrowserRpc.sender_tabId sender]) with
    | HValue v | HPromise (Fulfilled v) => [v]
    | _ => []
    end.
Proof.
  intros Hm Hh Hargs Hsent r.
  assert (message = VObj [("method", name); ("args", args)]) as ->.
  { unfold BrowserRpc.call in Hsent. destruct (truthy tabId); by injection Hsent. }
  subst r. split; [by eapply listener_invocation|].
  erewrite listener_registered; [|done|done|done]. cbv zeta.
  destruct (h _) as [res|[v|e|]|e]; cbn [BrowserRpc.now BrowserRpc.later];
    repeat rewrite <- app_assoc; by rewrite replies_log.
Qed.

(** X12. [Browser.rpc.call] with [args] that is truthy but no array (a
    string, a number, a plain object): the listener holding the method
    raises a TypeError on [args.push], having called no handler, and never
    replies. *)
Theorem channel_non_array_args_raise
    (b : BrowserRpc.browser) (methods : gmap string handler) (h : handler)
    (resolve : promise) (tabId name args : value) (sender message : value) :
  BrowserRpc._methods b = Some methods →
  methods !! to_string name = Some h →
  truthy args = true →
  is_array args = false →
  sent_message (BrowserRpc.call resolve tabId name args) = Some message →
  let r := BrowserRpc._listener b message sender in
  BrowserRpc.returned r = Throw TypeError ∧
  BrowserRpc.invocations (BrowserRpc.now r) = [] ∧
  BrowserRpc.replies (BrowserRpc.now r ++ BrowserRpc.later r) = [].
Proof.
  intros Hm Hh Htrue Harr Hsent r.
  assert (message = VObj [("method", name); ("args", args)]) as ->.
  { unfold BrowserRpc.call in Hsent. destruct (truthy tabId); by injection Hsent. }
  subst r. unfold BrowserRpc._listener. rewrite Hm.
  cbn [prop field String.eqb Ascii.eqb Bool.eqb]. rewrite (read_own _ _ _ Hh).
  unfold js_or. rewrite Htrue.
  destruct args; try done;
    cbn [BrowserRpc.now BrowserRpc.later BrowserRpc.returned];
    by rewrite ?app_nil_r, ?replies_logged, ?invocations_logged.
Qed.

End ChannelDispatch.

(** ** Properties of Browser.storage *)

Section Storage.

Import BrowserStorage.

Variable b : BrowserRpc.browser.

(** The default value, [Browser.storage._default]. *)
Variable _default : value.

(** X13. What was stored is read back: after [set(st)] with a truthy [st],
    [get] yields [st], writes nothing and logs nothing, however often it is
    called; of two [set] the last one wins. *)
Theorem storage_round_trip (area : gmap string value) (st0 st : value) :
  truthy st = true →
  let area1 := fst (set b (fst (set b area st0)) st) in
  get b _default area1 = (area1, [], st) ∧
  get b _default (fst (fst (get b _default area1))) = (area1, [], st).
Proof.
  intros Htrue area1.
  assert (get b _default area1 = (area1, [], st)) as Hget.
  { unfold get, local_get. subst area1. cbn [set fst]. rewrite lookup_insert_eq.
    cbn. rewrite ?String.eqb_refl. by rewrite Htrue. }
  by rewrite Hget.
Qed.

(** X14. When nothing truthy is stored (nothing at all, as after [clear],
    or a falsy value such as [false], [0] or the empty string), [get]
    yields the default value and stores it, overwriting the falsy value. *)
Theorem storage_default (area : gmap string value) :
  (∀ v, area !! _key = Some v → truthy v = false) →
  get b _default area =
    (<[_key := _default]> area, BrowserRpc.log b [VStr "saving st"; _default], _default) ∧
  (∀ area', snd (get b _default (clear area')) = _default) ∧
  (∀ st, truthy st = false → snd (get b _default (fst (set b area st))) = _default) ∧
  (truthy _default = true →
   get b _default (fst (fst (get b _default area))) =
     (<[_key := _default]> area, [], _default)).
Proof.
  intros Hfalsy.
  assert (∀ area0, (∀ v, area0 !! _key = Some v → truthy v = false) →
    get b _default area0 =
      (<[_key := _default]> area0, BrowserRpc.log b [VStr "saving st"; _default],
       _default)) as Hget.
  { intros area0 H0. unfold get, local_get.
    destruct (area0 !! _key) as [v|] eqn:Hv; cbn; [|done].
    rewrite ?String.eqb_refl. by rewrite (H0 v). }
  split_and!.
  - by apply Hget.
  - intros area'. rewrite Hget; [done|]. unfold clear. intros v Hv.
    by rewrite lookup_empty in Hv.
  - intros st Hst. rewrite Hget; [done|]. cbn [set fst]. intros v Hv.
    rewrite lookup_insert_eq in Hv. by injection Hv as <-.
  - intros Htrue. rewrite (Hget area Hfalsy). cbn [fst].
    unfold get, local_get. rewrite lookup_insert_eq. cbn.
    rewrite ?String.eqb_refl. by rewrite Htrue.
Qed.

End Storage.

(** ** Properties of Browser.gui *)

Section Gui.

Import BrowserGui.

Context `{Runtime}.

Variable coerced_eq : value -> Z -> bool.
Variable getIconInfo : value -> value.

Local Abbreviation refreshIcon := (BrowserGui.refreshIcon coerced_eq getIconInfo).
Local Abbreviation refreshIcon_handler :=
  (BrowserGui.refreshIcon_handler coerced_eq getIconInfo).
Local Abbreviation refresh_each := (BrowserGui.refresh_each coerced_eq getIconInfo).
Local Abbreviation refreshAllIcons := (BrowserGui.refreshAllIcons coerced_eq getIconInfo).
Local Abbreviation onUpdated := (BrowserGui.onUpdated coerced_eq getIconInfo).
Local Abbreviation _refreshPageAction := (BrowserGui._refreshPageAction coerced_eq).

(** A value equals at most one word. *)
Lemma loose_eq_word_inj (v : value) (s1 s2 : string) :
  loose_eq_word v s1 = true → loose_eq_word v s2 = true → s1 = s2.
Proof.
  unfold loose_eq_word.
  destruct v as [| | | | | | |[]]; try done;
    intros H1%String.eqb_eq H2%String.eqb_eq; congruence.
Qed.

(** The icon set as a table from sizes to paths. *)
Lemma icons_table (private : value) :
  _icons private =
    VObj (map (λ size,
                 (to_string (VNum size),
                  VStr ("/images/pin_" +:+ (if truthy private then "" else "disabled_")
                        +:+ to_string (VNum size) +:+ ".png")))
            supportedIconSizes).
Proof. unfold _icons. by destruct (truthy private). Qed.

(** Reading a table keyed by printed numbers. *)
Lemma field_table (f : Z → value) (sizes : list Z) (size : Z) :
  field (map (λ s, (to_string (VNum s), f s)) sizes) (to_string (VNum size)) =
    if decide (size ∈ sizes) then f size else VUndef.
Proof.
  induction sizes as [|s rest IH]; [done|].
  cbn [map field]. destruct (String.eqb_spec (to_string (VNum s)) (to_string (VNum size)))
    as [Heq|Hne].
  - apply to_string_num_inj in Heq as ->.
    rewrite decide_True; [done|]. apply elem_of_cons. by left.
  - rewrite IH. destruct (decide (size ∈ rest)) as [Hin|Hout].
    + rewrite decide_True; [done|]. apply elem_of_cons. by right.
    + rewrite decide_False; [done|]. intros [->|Hin]%elem_of_cons; [|done].
      by apply Hne.
Qed.

(** X15. The icon set: every supported size has its path, which names the
    size, with [disabled_] in it exactly when the icon is not the private
    one; no other size has a path. *)
Theorem icons_paths (private : value) (size : Z) :
  size ∈ supportedIconSizes →
  prop (_icons private) (to_string (VNum size)) =
    VStr ("/images/pin_" +:+ (if truthy private then "" else "disabled_")
          +:+ to_string (VNum size) +:+ ".png") ∧
  prop (_icons (VBool true)) (to_string (VNum size)) ≠
    prop (_icons (VBool false)) (to_string (VNum size)) ∧
  ∀ other, other ∉ supportedIconSizes →
    prop (_icons private) (to_string (VNum other)) = VUndef.
Proof.
  intros Hin. split_and!.
  - rewrite icons_table. cbn [prop].
    rewrite (field_table (λ s, VStr _)). by rewrite decide_True.
  - unfold supportedIconSizes in Hin.
    repeat (apply elem_of_cons in Hin as [->|Hin]); [..|by apply elem_of_nil in Hin];
      by vm_compute.
  - intros other Hother. rewrite icons_table. cbn [prop].
    rewrite (field_table (λ s, VStr _)). by rewrite decide_False.
Qed.


(** The two refresh functions send no message. *)
Lemma refresh_actions_send_nothing (this : browser) (tabId info : value) :
  messages (snd (fst (_refreshBrowserAction this tabId info))) = [] ∧
  messages (snd (fst (_refreshPageAction this tabId info))) = [].
Proof.
  unfold _refreshBrowserAction, BrowserGui._refreshPageAction.
  destruct info; try done; by destruct (_ || _).
Qed.

(** In the main script [refreshIcon] does the refresh itself. *)
Lemma refreshIcon_main (this : browser) (resolve : promise) (tabId : value) :
  loose_eq_word (_script this) "main" = true →
  refreshIcon this resolve tabId =
    if permanentIcon this
    then _refreshBrowserAction this tabId (getIconInfo tabId)
    else _refreshPageAction this tabId (getIconInfo tabId).
Proof.
  intros Hmain. unfold BrowserGui.refreshIcon. rewrite Hmain.
  destruct (loose_eq_word (_script this) "content") eqn:Hcontent; [|done].
  by pose proof (loose_eq_word_inj _ _ _ Hmain Hcontent).
Qed.

(** X16. A content script refreshing an icon: [refreshIcon(tabId)] there
    touches no icon but sends the main script one [refreshIcon] message with
    [tabId] as only argument; the main script's listener calls the handler
    on [tabId] and the sender's tab id, and the handler refreshes the
    sender's own tab when [tabId] is ['self'], the tab [tabId] otherwise,
    itself sending no message. *)
Theorem content_refresh_reaches_main
    (content main : browser) (resolve resolve' : promise) (tabId sender : value)
    (b : BrowserRpc.browser) (methods : gmap string handler) (h : handler) :
  loose_eq_word (_script content) "content" = true →
  loose_eq_word (_script main) "main" = true →
  BrowserRpc._methods b = Some methods →
  methods !! "refreshIcon" = Some h →
  let message := VObj [("method", VStr "refreshIcon"); ("args", VArr [tabId])] in
  let caller := BrowserRpc.sender_tabId sender in
  let target := if loose_eq_word tabId "self" then caller else tabId in
  refreshIcon content resolve tabId =
    (content, [Rpc (BrowserRpc.RuntimeSendMessage message resolve)], Awaiting) ∧
  BrowserRpc.invocations (BrowserRpc.now (BrowserRpc._listener b message sender)) =
    [[tabId; caller]] ∧
  refreshIcon_handler main resolve' [tabId; caller] =
    (if permanentIcon main
     then _refreshBrowserAction main target (getIconInfo target)
     else _refreshPageAction main target (getIconInfo target)) ∧
  messages (snd (fst (refreshIcon_handler main resolve' [tabId; caller]))) = [].
Proof.
  intros Hcontent Hmain Hm Hh message caller target.
  assert (refreshIcon_handler main resolve' [tabId; caller] =
            if permanentIcon main
            then _refreshBrowserAction main target (getIconInfo target)
            else _refreshPageAction main target (getIconInfo target)) as Hhandler.
  { unfold BrowserGui.refreshIcon_handler. cbn [parameter nth].
    by rewrite refreshIcon_main. }
  split_and!.
  - unfold BrowserGui.refreshIcon. by rewrite Hcontent.
  - subst message. by rewrite (listener_invocation b _ sender methods h [tabId]).
  - exact Hhandler.
  - rewrite Hhandler. destruct (permanentIcon main); apply refresh_actions_send_nothing.
Qed.

(** X17. A page action that is shown is watched: when
    [Browser.gui.iconShown] exists, showing the icon of a tab marks the tab
    in it, so that the [tabs.onUpdated] listener hides the icon when that
    tab starts loading, whereas an update of a tab that was never marked
    does nothing. *)
Theorem shown_icon_is_watched
    (this : browser) (resolve : promise) (tabId other info' : value)
    (fs : list (string * value)) (shown : gmap string value) :
  iconShown this = Some shown →
  truthy (field fs "hidden") = false →
  PostRPC.loose_eq coerced_eq (field fs "apiCalls") 0 = false →
  shown !! to_string other = None →
  to_string other ≠ to_string tabId →
  let this1 := fst (fst (_refreshPageAction this tabId (VObj fs))) in
  iconShown this1 = Some (<[to_string tabId := VNum 1]> shown) ∧
  Api "pageAction.show" [tabId] ∈ snd (fst (_refreshPageAction this tabId (VObj fs))) ∧
  onUpdated this1 resolve tabId (VObj [("status", VStr "loading")]) =
    (this1, [Api "pageAction.hide" [tabId]], Finished) ∧
  onUpdated this1 resolve other info' = (this1, [], Finished).
Proof.
  intros Hshown Hhidden Hcalls Hother Hne this1.
  assert (this1 = set_iconShown this (<[to_string tabId := VNum 1]> shown)) as ->.
  { subst this1. unfold BrowserGui._refreshPageAction. cbn [prop].
    by rewrite Hhidden, Hcalls, Hshown. }
  split_and!.
  - done.
  - unfold BrowserGui._refreshPageAction. cbn [prop]. rewrite Hhidden, Hcalls. cbn.
    set_solver.
  - unfold BrowserGui.onUpdated. cbn [iconShown set_iconShown].
    by rewrite lookup_insert_eq.
  - unfold BrowserGui.onUpdated. cbn [iconShown set_iconShown].
    rewrite lookup_insert_ne by done. by rewrite Hother.
Qed.


(** X19. Closing the popup: outside the popup [closePopup] throws and does
    nothing; in a popup shown as a tab it sends the main script one
    [closeTab] message without arguments, the listener there calls the
    handler on the sender's tab id alone, and the handler removes that tab,
    the popup's own; in any other popup it closes the window and sends
    nothing. *)
Theorem close_popup_closes_own_tab
    (this : browser) (resolve : promise) (sender : value)
    (b : BrowserRpc.browser) (methods : gmap string handler) (h : handler) :
  BrowserRpc._methods b = Some methods →
  methods !! "closeTab" = Some h →
  let message := VObj [("method", VStr "closeTab"); ("args", VArr [])] in
  (loose_eq_word (_script this) "popup" = false →
   closePopup this resolve = ([], Failed (VStr "only called from popup"))) ∧
  (loose_eq_word (_script this) "popup" = true → popupAsTab this = false →
   closePopup this resolve = ([WindowClose], Finished)) ∧
  (loose_eq_word (_script this) "popup" = true → popupAsTab this = true →
   closePopup this resolve =
     ([Rpc (BrowserRpc.RuntimeSendMessage message resolve)], Finished)) ∧
  flat_map closeTab_handler
    (BrowserRpc.invocations (BrowserRpc.now (BrowserRpc._listener b message sender))) =
    [Api "tabs.remove" [BrowserRpc.sender_tabId sender]].
Proof.
  intros Hm Hh message. unfold closePopup. split_and!.
  - by intros ->.
  - by intros -> ->.
  - by intros -> ->.
  - subst message. by rewrite (listener_invocation b _ sender methods h []).
Qed.


(** The loop over tab ids in a main script with browser action. *)
Lemma refresh_each_browser_action (this : browser) (resolve : promise) (ids : list value) :
  loose_eq_word (_script this) "main" = true →
  permanentIcon this = true →
  (∀ id, getIconInfo id ≠ VUndef ∧ getIconInfo id ≠ VNull) →
  refresh_each this resolve ids =
    (this,
     flat_map (λ id, snd (fst (_refreshBrowserAction this id (getIconInfo id)))) ids,
     Awaiting).
Proof.
  intros Hmain Hperm Hinfo. induction ids as [|id rest IH]; [done|].
  cbn [BrowserGui.refresh_each flat_map]. rewrite refreshIcon_main by done.
  rewrite Hperm. destruct (Hinfo id) as [Hu Hn].
  unfold _refreshBrowserAction at 1 3.
  destruct (getIconInfo id) eqn:Hid; try done; rewrite IH; reflexivity.
Qed.

(** A refresh that fails, in the main script: the promise of
    [refreshAllIcons] is left unsettled for good. *)
Lemma refresh_all_stuck (this : browser) (resolve : promise) (tab : value) :
  loose_eq_word (_script this) "main" = true →
  getIconInfo (prop tab "id") = VUndef →
  snd (refreshAllIcons this resolve [tab]) = Stuck.
Proof.
  intros Hmain Hinfo. unfold BrowserGui.refreshAllIcons.
  destruct (permanentIcon this) eqn:Hperm; cbn [map app BrowserGui.refresh_each];
    rewrite refreshIcon_main by done; rewrite Hperm, Hinfo; reflexivity.
Qed.

(** X20. [refreshAllIcons] in the main script of a build with browser
    action: after asking for all tabs it refreshes the browser action of
    each tab, in the order of the tabs, and at last the default state
    (tab id [null]), with five browser action calls for each; the object is
    unchanged.  The promise it returns is fulfilled only once the browser
    has called back. *)
Theorem refresh_all_browser_action
    (this : browser) (resolve : promise) (tabs : list value) :
  loose_eq_word (_script this) "main" = true →
  permanentIcon this = true →
  (∀ id, getIconInfo id ≠ VUndef ∧ getIconInfo id ≠ VNull) →
  refreshAllIcons this resolve tabs =
    (this,
     ApiCallback "tabs.query" [VObj []] ::
     flat_map (λ id, snd (fst (_refreshBrowserAction this id (getIconInfo id))))
       (map (λ tab, prop tab "id") tabs ++ [VNull]),
     Awaiting) ∧
  length (snd (fst (refreshAllIcons this resolve tabs))) = (5 * length tabs + 6)%nat.
Proof.
  intros Hmain Hperm Hinfo.
  assert (refreshAllIcons this resolve tabs =
    (this,
     ApiCallback "tabs.query" [VObj []] ::
     flat_map (λ id, snd (fst (_refreshBrowserAction this id (getIconInfo id))))
       (map (λ tab, prop tab "id") tabs ++ [VNull]),
     Awaiting)) as Hall.
  { unfold BrowserGui.refreshAllIcons. rewrite Hperm, map_app.
    by rewrite refresh_each_browser_action. }
  split; [exact Hall|]. rewrite Hall. cbn [fst snd length].
  assert (∀ ids, length (flat_map
            (λ id, snd (fst (_refreshBrowserAction this id (getIconInfo id)))) ids) =
          (5 * length ids)%nat) as Hlen.
  { induction ids as [|id rest IH]; [done|]. cbn [flat_map]. rewrite length_app, IH.
    destruct (Hinfo id) as [Hu Hn]. unfold _refreshBrowserAction.
    destruct (getIconInfo id); try done; cbn; lia. }
  rewrite Hlen, length_app, length_map. cbn. lia.
Qed.

(** X21. [getCallUrl]: with a tab id it asks that tab for its state,
    without looking for the active tab; the content script's listener calls
    [getState] on the sender's tab id alone, and what it answers gives the
    result, its [callUrl] when the answer is truthy, the answer itself when
    it is not (a tab without content script: null, not an error).  Without
    tab id and without any active tab, the tabs are queried, no message is
    sent and the result never comes. *)
Theorem call_url_of_tab
    (resolve : promise) (tabId state sender : value) (tabs : list value)
    (b : BrowserRpc.browser) (methods : gmap string handler) (h : handler) :
  BrowserRpc._methods b = Some methods →
  methods !! "getState" = Some h →
  h [BrowserRpc.sender_tabId sender] = HValue state →
  truthy tabId = true →
  let message := VObj [("method", VStr "getState"); ("args", VArr [])] in
  getCallUrl resolve tabId tabs (Some state) =
    ([Rpc (BrowserRpc.TabsSendMessage tabId message resolve)],
     Fulfilled (if truthy state then prop state "callUrl" else state)) ∧
  BrowserRpc.replies
    (BrowserRpc.now (BrowserRpc._listener b message sender) ++
     BrowserRpc.later (BrowserRpc._listener b message sender)) = [state] ∧
  (∀ answer, getCallUrl resolve tabId tabs answer =
     getCallUrl resolve tabId [] answer) ∧
  (∀ falsy answer, truthy falsy = false →
     getCallUrl resolve falsy [] answer =
       ([ApiCallback "tabs.query"
           [VObj [("active", VBool true); ("lastFocusedWindow", VBool true)]]],
        Unsettled)).
Proof.
  intros Hm Hh Hstate Htab message. split_and!.
  - unfold getCallUrl, BrowserRpc.call. by rewrite Htab.
  - subst message. erewrite listener_registered; [|done|done|done].
    cbv zeta. cbn [app]. rewrite Hstate. cbn [BrowserRpc.now BrowserRpc.later].
    by rewrite app_nil_r, replies_log.
  - intros answer. unfold getCallUrl. by rewrite Htab.
  - intros falsy answer Hfalsy. unfold getCallUrl. by rewrite Hfalsy.
Qed.

End Gui.

(** ** The further properties on sample data *)

Import MoreSamples.

Section OnMoreSamples.

Existing Instance no_function_members.

(** The response of [page_b] to an [echo] request starts nothing at
    [page_a_waiting]. *)
Lemma responses_start_nothing_witness :
  PostRPC.invocations
    (PostRPC.now (PostRPC._receiveMessage true no_coercion no_object_arguments
                    page_a_waiting (response_7 VUndef)) ++
     PostRPC.later (PostRPC._receiveMessage true no_coercion no_object_arguments
                      page_a_waiting (response_7 VUndef))) = [] ∧
  PostRPC.posted
    (PostRPC.now (PostRPC._receiveMessage true no_coercion no_object_arguments
                    page_a_waiting (response_7 VUndef)) ++
     PostRPC.later (PostRPC._receiveMessage true no_coercion no_object_arguments
                      page_a_waiting (response_7 VUndef))) = [].
Proof.
  apply (responses_start_nothing true no_coercion no_object_arguments
           (PostRPC.register page_b (VStr "echo") echo) page_a_waiting
           (request_from_a (VStr "echo")) (response_7 VUndef)).
  by apply list_elem_of_singleton.
Defined.

(** The response to call 7, delivered twice to [page_a_waiting]. *)
Lemma response_replay_ignored_witness :
  PostRPC._receiveMessage true no_coercion no_object_arguments
    (PostRPC.state (PostRPC._receiveMessage true no_coercion no_object_arguments
                      page_a_waiting (response_7 (VNum 1))))
    (response_7 (VNum 1)) =
  PostRPC.ignored
    (PostRPC.state (PostRPC._receiveMessage true no_coercion no_object_arguments
                      page_a_waiting (response_7 (VNum 1)))).
Proof.
  exact (proj2 (proj2 (proj2
           (response_replay_ignored true no_coercion no_object_arguments
              page_a_waiting (response_7 (VNum 1))
              (VObj [("callId", VNum 7); ("value", VArr [VNum 1])])
              eq_refl eq_refl eq_refl))) eq_refl).
Defined.

(** A response to call 7 carrying the number 5 as [value]. *)
Lemma malformed_response_loses_call_witness :
  PostRPC._receiveMessage true no_coercion no_object_arguments
    page_a_waiting bad_response_7 =
  PostRPC.Outcome page_a [] [] (Rejected TypeError).
Proof.
  exact (proj1 (malformed_response_loses_call true no_coercion no_object_arguments
                  page_a_waiting bad_response_7
                  (VObj [("callId", VNum 7); ("value", VNum 5)]) 0%nat
                  eq_refl eq_refl eq_refl eq_refl)).
Defined.

(** [call("echo", "abc")]: a string where the argument array belongs. *)
Lemma call_with_non_array_args_unanswered_witness :
  PostRPC.round_trip true no_coercion no_object_arguments
    page_a (PostRPC.register page_b (VStr "echo") echo) 0%nat
    (VStr "echo") (VStr "abc") 7 =
  (fst (PostRPC.call page_a 0%nat (VStr "echo") (VStr "abc") 7), []).
Proof.
  exact (proj1 (call_with_non_array_args_unanswered true no_coercion no_object_arguments
                  page_a (PostRPC.register page_b (VStr "echo") echo) 0%nat
                  (VStr "echo") (VStr "abc") 7 eq_refl eq_refl)).
Defined.

(** A PostRPC named [frame] does not hear one named [page]. *)
Lemma names_isolate_witness :
  PostRPC.round_trip true no_coercion no_object_arguments
    page_a (PostRPC.register (PostRPC.new (VStr "frame") 22 (VStr "*")) (VStr "echo") echo)
    0%nat (VStr "echo") (VArr []) 7 =
  (fst (PostRPC.call page_a 0%nat (VStr "echo") (VArr []) 7), []).
Proof.
  apply (names_isolate true no_coercion no_object_arguments
           (VStr "page") (VStr "frame") 11 22 (VStr "*") (VStr "*")
           page_a
           (PostRPC.register (PostRPC.new (VStr "frame") 22 (VStr "*")) (VStr "echo") echo)
           0%nat (VStr "echo") (VArr []) 7).
  - discriminate.
  - reflexivity.
  - reflexivity.
Defined.


(** The two registrations of the main script add one listener. *)
Lemma listener_added_once_witness :
  snd (register_all (BrowserRpc.Browser false false None) main_entries) =
    [BrowserRpc.AddListener].
Proof.
  apply (listener_added_once false false main_entries). discriminate.
Defined.

(** [Browser.rpc.call(5, "whoCalled", [1])] answered by the main script for
    a sender in tab 3. *)
Lemma channel_round_trip_witness :
  BrowserRpc.invocations
    (BrowserRpc.now
       (BrowserRpc._listener main_script
          (VObj (channel_request (VStr "whoCalled") (VArr [VNum 1]))) (from_tab 3))) =
    [[VNum 1; VNum 3]] ∧
  BrowserRpc.replies
    (BrowserRpc.now
       (BrowserRpc._listener main_script
          (VObj (channel_request (VStr "whoCalled") (VArr [VNum 1]))) (from_tab 3)) ++
     BrowserRpc.later
       (BrowserRpc._listener main_script
          (VObj (channel_request (VStr "whoCalled") (VArr [VNum 1]))) (from_tab 3))) =
    [VArr [VNum 1; VNum 3]].
Proof.
  exact (channel_round_trip main_script {[ "whoCalled" := whoCalled ]} whoCalled
           0%nat (VNum 5) (VStr "whoCalled") (VArr [VNum 1]) [VNum 1] (from_tab 3)
           (VObj (channel_request (VStr "whoCalled") (VArr [VNum 1])))
           eq_refl eq_refl eq_refl eq_refl).
Defined.

(** [Browser.rpc.call(5, "whoCalled", "abc")]. *)
Lemma channel_non_array_args_raise_witness :
  BrowserRpc.returned
    (BrowserRpc._listener main_script
       (VObj (channel_request (VStr "whoCalled") (VStr "abc"))) (from_tab 3)) =
    Throw TypeError.
Proof.
  exact (proj1 (channel_non_array_args_raise main_script {[ "whoCalled" := whoCalled ]}
                  whoCalled 0%nat (VNum 5) (VStr "whoCalled") (VStr "abc") (from_tab 3)
                  (VObj (channel_request (VStr "whoCalled") (VStr "abc")))
                  eq_refl eq_refl eq_refl eq_refl eq_refl)).
Defined.

(** Storing [settings] over [defaults] and reading back. *)
Lemma storage_round_trip_witness :
  BrowserStorage.get main_script defaults
    (fst (BrowserStorage.set main_script
            (fst (BrowserStorage.set main_script ∅ defaults)) settings)) =
  (fst (BrowserStorage.set main_script
          (fst (BrowserStorage.set main_script ∅ defaults)) settings),
   [], settings).
Proof.
  exact (proj1 (storage_round_trip main_script defaults ∅ defaults settings eq_refl)).
Defined.

(** Reading an empty storage area. *)
Lemma storage_default_witness :
  BrowserStorage.get main_script defaults ∅ =
    (<[BrowserStorage._key := defaults]> ∅, [], defaults).
Proof.
  apply (storage_default main_script defaults ∅).
  intros v Hv. by rewrite lookup_empty in Hv.
Defined.

(** The icon of size 16. *)
Lemma icons_paths_witness :
  prop (BrowserGui._icons (VBool false)) (to_string (VNum 16)) =
    VStr "/images/pin_disabled_16.png".
Proof.
  apply (icons_paths (VBool false) 16). apply elem_of_cons. by left.
Defined.

(** [refreshIcon('self')] in the content script of tab 3. *)
Lemma content_refresh_reaches_main_witness :
  BrowserGui.refreshIcon no_coercion busy content_script 0%nat (VStr "self") =
    (content_script,
     [BrowserGui.Rpc
        (BrowserRpc.RuntimeSendMessage
           (VObj [("method", VStr "refreshIcon"); ("args", VArr [VStr "self"])]) 0%nat)],
     BrowserGui.Awaiting) ∧
  BrowserGui.refreshIcon_handler no_coercion busy main_chrome 1%nat [VStr "self"; VNum 3] =
    BrowserGui._refreshBrowserAction main_chrome (VNum 3) (busy (VNum 3)).
Proof.
  pose proof (content_refresh_reaches_main no_coercion busy content_script main_chrome
                0%nat 1%nat (VStr "self") (from_tab 3) main_rpc
                (<[ "closeTab" := closeTab_stub ]> {[ "refreshIcon" := refreshIcon_stub ]})
                refreshIcon_stub eq_refl eq_refl eq_refl eq_refl) as (H1 & _ & H3 & _).
  split; [exact H1|exact H3].
Defined.

(** Showing the page action of tab 3, then an update of tab 3. *)
Lemma shown_icon_is_watched_witness :
  BrowserGui.onUpdated no_coercion busy
    (fst (fst (BrowserGui._refreshPageAction no_coercion main_page_action (VNum 3)
                 (info_of false true 3))))
    0%nat (VNum 3) (VObj [("status", VStr "loading")]) =
  (fst (fst (BrowserGui._refreshPageAction no_coercion main_page_action (VNum 3)
               (info_of false true 3))),
   [BrowserGui.Api "pageAction.hide" [VNum 3]], BrowserGui.Finished).
Proof.
  pose proof (shown_icon_is_watched no_coercion busy main_page_action 0%nat (VNum 3) (VNum 4)
                VUndef
                [("hidden", VBool false); ("private", VBool true);
                 ("apiCalls", VNum 3); ("title", VStr "Location Guard")]
                ∅ eq_refl eq_refl eq_refl eq_refl) as H.
  refine (proj1 (proj2 (proj2 (H _)))). discriminate.
Defined.


(** The popup of Firefox on Android, shown in tab 3. *)
Lemma close_popup_closes_own_tab_witness :
  flat_map BrowserGui.closeTab_handler
    (BrowserRpc.invocations
       (BrowserRpc.now
          (BrowserRpc._listener main_rpc
             (VObj [("method", VStr "closeTab"); ("args", VArr [])]) (from_tab 3)))) =
    [BrowserGui.Api "tabs.remove" [VNum 3]].
Proof.
  exact (proj2 (proj2 (proj2
           (close_popup_closes_own_tab popup_android 0%nat (from_tab 3) main_rpc
              (<[ "closeTab" := closeTab_stub ]> {[ "refreshIcon" := refreshIcon_stub ]})
              closeTab_stub eq_refl eq_refl)))).
Defined.

(** All icons of a Chrome with one tab. *)
Lemma refresh_all_browser_action_witness :
  snd (BrowserGui.refreshAllIcons no_coercion busy main_chrome 0%nat
         [VObj [("id", VNum 3)]]) = BrowserGui.Awaiting ∧
  length (snd (fst (BrowserGui.refreshAllIcons no_coercion busy main_chrome 0%nat
                      [VObj [("id", VNum 3)]]))) = 11%nat.
Proof.
  assert (∀ id, busy id ≠ VUndef ∧ busy id ≠ VNull) as Hinfo
    by (intros id; split; discriminate).
  destruct (refresh_all_browser_action no_coercion busy main_chrome 0%nat
              [VObj [("id", VNum 3)]] eq_refl eq_refl Hinfo) as [Hall Hlen].
  split; [by rewrite Hall|exact Hlen].
Defined.

(** The call url of tab 3. *)
Lemma call_url_of_tab_witness :
  BrowserGui.getCallUrl 0%nat (VNum 3) [] (Some page_state) =
    ([BrowserGui.Rpc
        (BrowserRpc.TabsSendMessage (VNum 3)
           (VObj [("method", VStr "getState"); ("args", VArr [])]) 0%nat)],
     Fulfilled (VStr "https://example.org/")).
Proof.
  exact (proj1 (call_url_of_tab 0%nat (VNum 3) page_state from_page [] content_rpc
                  {[ "getState" := getState_stub ]} getState_stub
                  eq_refl eq_refl eq_refl eq_refl)).
Defined.

End OnMoreSamples.
